(** * Verification of the travel-agent orchestrator (NestJS starter kit)

    The development embeds the TypeScript sources shallowly: asynchronous
    service methods become functions that thread an explicit world state
    (database table, Redis connection, effect log) and return either a
    value or the exception that the method throws. *)

From Stdlib Require Import String Ascii List ZArith QArith Lia Bool.
From stdpp Require Import base option list gmap strings.
Import ListNotations.
Open Scope string_scope.

(** ** Shared vocabulary: NestJS HTTP exceptions *)

Module Nest.

(** The exception classes of [@nestjs/common] that the sources throw.
    [HttpException status] is the base class built with an explicit
    status code. *)
Inductive ExceptionClass : Type :=
| BadRequestException
| UnauthorizedException
| ForbiddenException
| NotFoundException
| ConflictException
| RequestTimeoutException
| PayloadTooLargeException
| InternalServerErrorException
| ServiceUnavailableException
| HttpException (status : Z).

Record Exception : Type := throw
  { exn_class : ExceptionClass; exn_message : string }.

Definition getStatus (c : ExceptionClass) : Z :=
  match c with
  | BadRequestException => 400
  | UnauthorizedException => 401
  | ForbiddenException => 403
  | NotFoundException => 404
  | ConflictException => 409
  | RequestTimeoutException => 408
  | PayloadTooLargeException => 413
  | InternalServerErrorException => 500
  | ServiceUnavailableException => 503
  | HttpException status => status
  end.

End Nest.

(** ** common/filters/prisma-client-exception: PrismaClientExceptionFilter *)

Module PrismaFilter.
Import Nest.

(** What the filter can be handed: the two classes named in [@Catch], or
    (the parameter is typed [any]) something else. Besides [code] a known
    request error carries a message and the client version, which the
    switch never reads. *)
Inductive PrismaError : Type :=
| PrismaClientKnownRequestError (code : string) (message : string) (clientVersion : string)
| PrismaClientValidationError (message : string)
| UnknownError.

(** The [case] labels of [switch (code)] in source order, each with the
    exception its branch throws. *)
Definition cases : list (string * Exception) :=
  [
    ("P1000", throw UnauthorizedException
       "Authentication failed against database server. Invalid database credentials provided.");
    ("P1001", throw ServiceUnavailableException
       "Cannot reach database server. Please ensure your database server is running.");
    ("P1002", throw ServiceUnavailableException
       "Database server connection timed out. Please try again.");
    ("P1003", throw NotFoundException
       "Database does not exist at the specified path.");
    ("P1008", throw RequestTimeoutException
       "Database operation timed out. Please try again.");
    ("P1009", throw ConflictException
       "Database already exists on the database server.");
    ("P1010", throw ForbiddenException
       "Database user was denied access to the database.");
    ("P1011", throw ServiceUnavailableException
       "Error opening a TLS connection to the database.");
    ("P1012", throw BadRequestException
       "Invalid Prisma schema. Please check your schema configuration.");
    ("P1013", throw BadRequestException
       "The provided database connection string is invalid.");
    ("P1014", throw NotFoundException
       "The underlying table or collection does not exist.");
    ("P1015", throw BadRequestException
       "Your Prisma schema is using features not supported by your database version.");
    ("P1016", throw BadRequestException
       "Raw query has an incorrect number of parameters. Expected parameters do not match actual.");
    ("P1017", throw ServiceUnavailableException
       "Server has closed the connection.");
    ("P2000", throw BadRequestException
       "The provided value is too long for the column.");
    ("P2001", throw NotFoundException
       "The record searched for in the where condition does not exist.");
    ("P2002", throw ConflictException
       "Unique constraint failed. A record with this value already exists.");
    ("P2003", throw ConflictException
       "Foreign key constraint failed on the specified field.");
    ("P2004", throw ConflictException
       "A constraint failed on the database.");
    ("P2005", throw BadRequestException
       "The value stored in the database is invalid for the field type.");
    ("P2006", throw BadRequestException
       "The provided value for the field is not valid.");
    ("P2007", throw BadRequestException
       "Data validation error encountered.");
    ("P2008", throw BadRequestException
       "Failed to parse the query.");
    ("P2009", throw BadRequestException
       "Failed to validate the query.");
    ("P2010", throw BadRequestException
       "Raw query failed to execute.");
    ("P2011", throw BadRequestException
       "Null constraint violation on the specified constraint.");
    ("P2012", throw BadRequestException
       "Missing a required value.");
    ("P2013", throw BadRequestException
       "Missing required argument for field.");
    ("P2014", throw ConflictException
       "The change would violate a required relation between models.");
    ("P2015", throw NotFoundException
       "A related record could not be found.");
    ("P2016", throw BadRequestException
       "Query interpretation error.");
    ("P2017", throw ConflictException
       "Records for the relation are not connected.");
    ("P2018", throw NotFoundException
       "Required connected records were not found.");
    ("P2019", throw BadRequestException
       "Input error encountered.");
    ("P2020", throw BadRequestException
       "Value is out of range for the type.");
    ("P2021", throw NotFoundException
       "The table does not exist in the current database.");
    ("P2022", throw NotFoundException
       "The column does not exist in the current database.");
    ("P2023", throw BadRequestException
       "Inconsistent column data encountered.");
    ("P2024", throw ServiceUnavailableException
       "Timed out fetching a new connection from the connection pool.");
    ("P2025", throw NotFoundException
       "An operation failed because required records were not found.");
    ("P2026", throw BadRequestException
       "The current database provider does not support a feature used in the query.");
    ("P2027", throw InternalServerErrorException
       "Multiple errors occurred on the database during query execution.");
    ("P2028", throw InternalServerErrorException
       "Transaction API error.");
    ("P2029", throw BadRequestException
       "Query parameter limit exceeded.");
    ("P2030", throw BadRequestException
       "Cannot find a fulltext index to use for the search.");
    ("P2031", throw BadRequestException
       "MongoDB server must be run as a replica set for transactions.");
    ("P2033", throw BadRequestException
       "Number used in query does not fit into a 64 bit signed integer.");
    ("P2034", throw ConflictException
       "Transaction failed due to a write conflict or deadlock. Please retry.");
    ("P2035", throw InternalServerErrorException
       "Assertion violation on the database.");
    ("P2036", throw InternalServerErrorException
       "Error in external connector.");
    ("P2037", throw ServiceUnavailableException
       "Too many database connections opened.");
    ("P3000", throw InternalServerErrorException
       "Failed to create database.");
    ("P3001", throw BadRequestException
       "Migration is possible with destructive changes and possible data loss.");
    ("P3002", throw InternalServerErrorException
       "The attempted migration was rolled back.");
    ("P3003", throw BadRequestException
       "The format of migrations has changed and is no longer valid.");
    ("P3004", throw BadRequestException
       "Cannot alter a system database.");
    ("P3005", throw BadRequestException
       "The database schema is not empty.");
    ("P3006", throw InternalServerErrorException
       "Migration failed to apply cleanly to the shadow database.");
    ("P3007", throw BadRequestException
       "Preview features are not allowed in schema engine. Please remove them from your data model.");
    ("P3008", throw ConflictException
       "The migration is already recorded as applied in the database.");
    ("P3009", throw InternalServerErrorException
       "Failed migrations found in target database. Cannot apply new migrations.");
    ("P3010", throw BadRequestException
       "Migration name is too long. Must not exceed 200 characters.");
    ("P3011", throw BadRequestException
       "Migration cannot be rolled back because it was never applied.");
    ("P3012", throw BadRequestException
       "Migration cannot be rolled back because it is not in a failed state.");
    ("P3013", throw BadRequestException
       "Datasource provider arrays are no longer supported in migrate.");
    ("P3014", throw InternalServerErrorException
       "Could not create shadow database. Ensure the database user has permission to create databases.");
    ("P3015", throw NotFoundException
       "Migration file not found.");
    ("P3016", throw InternalServerErrorException
       "Database reset failed. Could not clean up database entirely.");
    ("P3017", throw NotFoundException
       "The migration could not be found.");
    ("P3018", throw InternalServerErrorException
       "A migration failed to apply. Cannot apply new migrations.");
    ("P3019", throw BadRequestException
       "Datasource provider in schema does not match the one in migration_lock.toml.");
    ("P3020", throw BadRequestException
       "Automatic shadow database creation is disabled on Azure SQL. Please set up manually.");
    ("P3021", throw BadRequestException
       "Foreign keys cannot be created on this database.");
    ("P3022", throw BadRequestException
       "Direct execution of DDL SQL statements is disabled on this database.");
    ("P3023", throw BadRequestException
       "ExternalTables and externalEnums must contain fully qualified identifiers.");
    ("P3024", throw BadRequestException
       "ExternalTables and externalEnums must contain simple identifiers without schema names.");
    ("P4000", throw InternalServerErrorException
       "Introspection operation failed to produce a schema file.");
    ("P4001", throw NotFoundException
       "The introspected database was empty.");
    ("P4002", throw BadRequestException
       "The schema of the introspected database was inconsistent.");
    ("P5011", throw (HttpException 429)
       "Request volume exceeded the limit. Implement a back-off strategy and try again.");
    ("P6000", throw InternalServerErrorException
       "Generic Accelerate error.");
    ("P6001", throw BadRequestException
       "The Accelerate URL is malformed. Must use prisma:// protocol.");
    ("P6002", throw UnauthorizedException
       "The API Key in the connection string is invalid.");
    ("P6003", throw (HttpException 402)
       "Plan limit has been reached. Included usage exceeded.");
    ("P6004", throw RequestTimeoutException
       "Global timeout of Accelerate has been exceeded.");
    ("P6005", throw BadRequestException
       "Invalid parameters supplied to Accelerate.");
    ("P6006", throw BadRequestException
       "The chosen Prisma version is not compatible with Accelerate.");
    ("P6008", throw ServiceUnavailableException
       "Engine failed to start. Could not establish connection to database.");
    ("P6009", throw PayloadTooLargeException
       "Response size limit of Accelerate has been exceeded.");
    ("P6010", throw ForbiddenException
       "Your Accelerate project is disabled. Please enable it to use.")
  ].

Definition default_case : Exception :=
  throw InternalServerErrorException "An unexpected database error occurred.".

(** [switch] compares the scrutinee with each label by strict equality, in
    order, and runs the first branch that matches. *)
Fixpoint switch (code : string) (cs : list (string * Exception)) : Exception :=
  match cs with
  | [] => default_case
  | (label, branch) :: rest =>
      if String.eqb code label then branch else switch code rest
  end.

(** [catch(exception, host)]: every path ends in a [throw], so the result
    is the exception thrown. [host] is not used by the body. *)
Definition catch (exception : PrismaError) : Exception :=
  match exception with
  | PrismaClientKnownRequestError code _ _ => switch code cases
  | PrismaClientValidationError message =>
      throw BadRequestException ("Database validation error: " ++ message)
  | UnknownError =>
      throw InternalServerErrorException "An unexpected error occurred."
  end.

Definition labels : list string := map fst cases.

End PrismaFilter.

(** ** redis/redis.service.ts: RedisService *)

Module Redis.
Import Nest.

(** Commands of the node-redis client that the service calls, with the
    arguments it passes. [SET_EX] is [client.set(key, value, { EX: ttl })]. *)
Inductive Command : Type :=
| GET (key : string)
| SET (key value : string)
| SET_EX (key value : string) (EX : Z)
| DEL (key : string)
| EXISTS (key : string)
| EXPIRE (key : string) (seconds : Z)
| TTL (key : string)
| HSET (key field value : string)
| HGET (key field : string)
| HGETALL (key : string)
| HDEL (key field : string)
| HKEYS (key : string)
| HVALS (key : string)
| HLEN (key : string)
| FLUSHALL
| KEYS (pattern : string)
| DBSIZE
| INFO (section : option string).

(** Replies of the server as the client hands them back. *)
Inductive Reply : Type :=
| RUndefined
| RNull
| RInteger (n : Z)
| RBulk (s : string)
| RArray (l : list string)
| RHash (h : list (string * string)).

(** The [RedisClientType] object: its [isReady] getter, and the commands
    sent over its connection so far (most recent last). *)
Record RedisClientType : Type := mkClient
  { isReady : bool; sent : list Command }.

(** The two private fields of the service. *)
Record RedisService : Type := mkService
  { client : option RedisClientType; isConnected : bool }.

(** The public data operations with their arguments; [ttl] and [section]
    are the optional parameters. *)
Inductive Operation : Type :=
| get (key : string)
| set (key value : string) (ttl : option Z)
| del (key : string)
| exists_ (key : string)
| expire (key : string) (seconds : Z)
| ttl (key : string)
| hset (key field value : string)
| hget (key field : string)
| hgetall (key : string)
| hdel (key field : string)
| hkeys (key : string)
| hvals (key : string)
| hlen (key : string)
| flushAll
| keys (pattern : string)
| dbSize
| info (section : option string).

Definition not_connected : Exception :=
  throw BadRequestException "Redis client is not connected or initialized".

(** [this.client?.isReady]: [None] is [undefined]. *)
Definition client_isReady (s : RedisService) : option bool :=
  isReady <$> client s.

(** JavaScript truthiness of an optional boolean. *)
Definition truthy (v : option bool) : bool :=
  match v with Some b => b | None => false end.

(** [v === true]. *)
Definition strictly_true (v : option bool) : bool :=
  match v with Some true => true | _ => false end.

(** [getClientOrThrow]: [if (!this.client?.isReady || !this.isConnected) throw ...;
    return this.client]. When the guard passes the client is not null. *)
Definition getClientOrThrow (s : RedisService) : Exception + RedisClientType :=
  if negb (truthy (client_isReady s)) || negb (isConnected s)
  then inl not_connected
  else match client s with
       | Some c => inr c
       | None => inl not_connected
       end.

(** [isAvailable]: [this.isConnected && this.client?.isReady === true]. *)
Definition isAvailable (s : RedisService) : bool :=
  isConnected s && strictly_true (client_isReady s).

(** [if (ttl)] on an optional number: [undefined] and [0] are falsy. *)
Definition ttl_given (t : option Z) : bool :=
  match t with Some n => negb (n =? 0)%Z | None => false end.

(** The single client call each method makes once it holds the client. *)
Definition command_of (op : Operation) : Command :=
  match op with
  | get key => GET key
  | set key value t =>
      if ttl_given t then SET_EX key value (default 0%Z t) else SET key value
  | del key => DEL key
  | exists_ key => EXISTS key
  | expire key seconds => EXPIRE key seconds
  | ttl key => TTL key
  | hset key field value => HSET key field value
  | hget key field => HGET key field
  | hgetall key => HGETALL key
  | hdel key field => HDEL key field
  | hkeys key => HKEYS key
  | hvals key => HVALS key
  | hlen key => HLEN key
  | flushAll => FLUSHALL
  | keys pattern => KEYS pattern
  | dbSize => DBSIZE
  | info section => INFO section
  end.

(** [result ?? null]. *)
Definition nullish_to_null (r : Reply) : Reply :=
  match r with RUndefined => RNull | _ => r end.

(** What the method returns from the awaited reply: [hget] alone
    post-processes it. *)
Definition returned (op : Operation) (r : Reply) : Reply :=
  match op with
  | hget _ _ => nullish_to_null r
  | _ => r
  end.

Definition send (c : RedisClientType) (cmd : Command) : RedisClientType :=
  {| isReady := isReady c; sent := (sent c ++ [cmd])%list |}.

Section Server.

(** The server's answer to a command, outside the program. *)
Variable server : Command -> Reply.

(** One call of a public data operation: the value returned or the
    exception thrown, and the service afterwards. *)
Definition call (op : Operation) (s : RedisService)
  : (Exception + Reply) * RedisService :=
  match getClientOrThrow s with
  | inl e => (inl e, s)
  | inr c =>
      let cmd := command_of op in
      (inr (returned op (server cmd)),
       {| client := Some (send c cmd); isConnected := isConnected s |})
  end.

End Server.

(** The commands that have reached the wire. *)
Definition wire (s : RedisService) : list Command :=
  match client s with Some c => sent c | None => [] end.

End Redis.

(** ** JavaScript string helpers used by the sources *)

Module Js.

(** [s.split(sep)] for a one-character separator: never returns an empty
    array ([''.split(' ')] is [['']]). *)
Fixpoint split (sep : ascii) (s : string) : list string :=
  match s with
  | EmptyString => [EmptyString]
  | String c rest =>
      if Ascii.eqb c sep then EmptyString :: split sep rest
      else match split sep rest with
           | [] => [String c EmptyString]
           | w :: ws => String c w :: ws
           end
  end.

(** [arr.pop()]: the last element, [undefined] ([None]) on an empty array. *)
Definition pop (l : list string) : option string := last l.

(** Truthiness of [string | undefined]: only a non-empty string is truthy. *)
Definition truthy_string (v : option string) : bool :=
  match v with
  | Some s => negb (String.eqb s "")
  | None => false
  end.

(** [v || d] on [string | null | undefined]. *)
Definition or_default (v : option string) (d : string) : string :=
  match v with
  | Some s => if String.eqb s "" then d else s
  | None => d
  end.

End Js.

(** ** auth/clerk.strategy.ts: ClerkStrategy.validate *)

Module Clerk.
Import Nest.

(** The part of the Express request that [validate] reads:
    [req.headers.authorization]. *)
Record Request : Type := mkRequest { authorization : option string }.

Section Strategy.

(** The payload of a verified token and the error of a failed
    verification, as [jsonwebtoken] produces them. *)
Variable Decoded : Type.
Variable VerifyError : Type.

(** [jwt.verify(token, this.getSigningKey, {}, callback)] wrapped in the
    promise: rejects with [err] or resolves with [decoded]. *)
Variable jwt_verify : string -> VerifyError + Decoded.

(** Everything [validate] can do to the outside. The strategy holds the
    injected [UserService]; a call to any of its methods would show up as
    [UserServiceCall], which in turn is what reads or writes the user table. *)
Inductive Effect : Type :=
| JwtVerify (token : string)
| ConsoleError (label : string) (error : VerifyError)
| UserServiceCall (method : string) (clerkId : string).

(** Values of the fields of the returned object. *)
Inductive Field : Type :=
| FDecoded (d : Decoded)
| FBoolean (b : bool).

(** A JavaScript object literal: its own properties in order. *)
Definition Object_ : Type := list (string * Field).

(** [req.headers.authorization?.split(' ').pop()]. *)
Definition token_of (req : Request) : option string :=
  match authorization req with
  | Some h => Js.pop (Js.split " "%char h)
  | None => None
  end.

(** [validate(req)]: the value the promise resolves to or the exception
    it rejects with, and the effects performed, in order. The block that
    would call [userService.createClerkUserAndSync] and return
    [syncAction] is commented out in the source and contributes nothing. *)
Definition validate (req : Request) : (Exception + Object_) * list Effect :=
  let token := token_of req in
  if negb (Js.truthy_string token)
  then (inl (throw UnauthorizedException "No token provided"), [])
  else
    let t := default "" token in
    match jwt_verify t with
    | inr decodedToken =>
        (inr [("decodedToken", FDecoded decodedToken)], [JwtVerify t])
    | inl error =>
        (inl (throw UnauthorizedException "Invalid token"),
         [JwtVerify t; ConsoleError "Token validation error:" error])
    end.

Definition is_user_sync (e : Effect) : bool :=
  match e with UserServiceCall _ _ => true | _ => false end.

End Strategy.

Arguments JwtVerify {VerifyError} token.
Arguments UserServiceCall {VerifyError} method clerkId.
Arguments ConsoleError {VerifyError} label error.
Arguments FDecoded {Decoded} d.
Arguments FBoolean {Decoded} b.
Arguments is_user_sync {VerifyError} e.

End Clerk.

(** ** user/user.service.ts: UserService (webhook methods) *)

Module Users.

(** An element of [email_addresses] (typed [any[]]): the two fields read. *)
Record EmailAddress : Type := mkEmail
  { ea_id : string; email_address : option string }.

(** The fields of the webhook payload [ClerkUser] that the service reads.
    [email_addresses] is optional-chained in the source, hence the option. *)
Record ClerkUser : Type := mkClerkUser
  { email_addresses : option (list EmailAddress);
    primary_email_address_id : option string;
    first_name : option string;
    last_name : option string }.

(** A row of the [user] table, with the columns of [UserResponseDto]. *)
Record User : Type := mkUser
  { id : string; email : string; name : option string;
    createdAt : Z; updatedAt : Z }.

(** [IUser]: [{ user, toBeSynced? }]. *)
Record IUser : Type := mkIUser { user : User; toBeSynced : option bool }.

(** What a call does besides returning: logger lines and Prisma queries. *)
Inductive Effect : Type :=
| LoggerLog (message : string)
| LoggerWarn (message : string)
| FindUnique (where_id : string)
| Create (data_id data_email : string) (data_name : option string)
| Update (where_id data_email : string) (data_name : option string)
| Delete (where_id : string).

Definition is_write (e : Effect) : bool :=
  match e with
  | Create _ _ _ | Update _ _ _ | Delete _ => true
  | _ => false
  end.

(** A rejected query: the code of the [PrismaClientKnownRequestError]. *)
Inductive QueryError : Type := KnownRequestError (code : string).

(** [email.id === userData.primary_email_address_id]. *)
Definition is_primary (u : ClerkUser) (e : EmailAddress) : bool :=
  match primary_email_address_id u with
  | Some p => String.eqb (ea_id e) p
  | None => false
  end.

(** [extractEmailFromWebhook]. *)
Definition extractEmailFromWebhook (userData : ClerkUser) : string :=
  let primaryEmail :=
    match email_addresses userData with
    | Some l => find (is_primary userData) l
    | None => None
    end in
  Js.or_default (primaryEmail ≫= email_address) "".

Section Service.

(** [String.prototype.trim]. *)
Variable trim : string -> string.

(** The schema of the table is generated code outside this snapshot:
    whether the database rejects the data of a new row next to the rows
    it holds (unique columns and the like), and with which error code, is
    left open. The primary key is [id]. *)
Variable schema_rejects :
  gmap string User -> string -> string -> option string -> option string.

(** [extractNameFromWebhook]. *)
Definition extractNameFromWebhook (userData : ClerkUser) : option string :=
  let firstName := Js.or_default (first_name userData) "" in
  let lastName := Js.or_default (last_name userData) "" in
  let fullName := trim (firstName ++ " " ++ lastName) in
  if String.eqb fullName "" then None else Some fullName.

(** [findUserById]: [prisma.user.findUnique({ where: { id } })]. *)
Definition findUserById (clerkId : string) (table : gmap string User) : option User :=
  table !! clerkId.

(** [prisma.user.create({ data })] at time [now]: a duplicate primary key
    is the unique-constraint error P2002; a rejected row changes nothing. *)
Definition prisma_user_create (now : Z) (data_id data_email : string)
    (data_name : option string) (table : gmap string User)
  : (QueryError + User) * gmap string User :=
  let row := mkUser data_id data_email data_name now now in
  match table !! data_id with
  | Some _ => (inl (KnownRequestError "P2002"), table)
  | None =>
      match schema_rejects table data_id data_email data_name with
      | Some code => (inl (KnownRequestError code), table)
      | None => (inr row, <[data_id := row]> table)
      end
  end.

(** [createUser(clerkId, webhookPayload)] run at time [now] on [table]:
    the result (or the error the promise rejects with), the table
    afterwards, and the effects in order. *)
Definition createUser (now : Z) (clerkId : string) (webhookPayload : ClerkUser)
    (table : gmap string User)
  : (QueryError + IUser) * gmap string User * list Effect :=
  let log1 := LoggerLog ("Creating user from webhook: " ++ clerkId) in
  match findUserById clerkId table with
  | Some existingUser =>
      (inr (mkIUser existingUser None), table,
       [log1; FindUnique clerkId;
        LoggerLog ("User already exists: " ++ clerkId)])
  | None =>
      let email := extractEmailFromWebhook webhookPayload in
      let name := extractNameFromWebhook webhookPayload in
      match prisma_user_create now clerkId email name table with
      | (inr user, table') =>
          (inr (mkIUser user None), table',
           [log1; FindUnique clerkId; Create clerkId email name;
            LoggerLog ("User created: " ++ clerkId)])
      | (inl err, table') =>
          (inl err, table', [log1; FindUnique clerkId; Create clerkId email name])
      end
  end.

End Service.

(** The three components of what [createUser] yields. *)
Definition result_of {A B C : Type} (x : A * B * C) : A := fst (fst x).
Definition table_after {A B C : Type} (x : A * B * C) : B := snd (fst x).
Definition effects_of {A B C : Type} (x : A * B * C) : C := snd x.

End Users.

(** ** config/env.config.ts: EnvironmentVariables and validateEnv *)

Module Env.

(** A JavaScript number: a finite value (doubles are rationals), an
    infinity or NaN. *)
Inductive Number : Type :=
| NaN
| Infinity (negative : bool)
| Finite (q : Q).

(** The primitive values a configuration record holds. *)
Inductive Value : Type :=
| VUndefined
| VNull
| VBoolean (b : bool)
| VNumber (n : Number)
| VString (s : string).

(** A plain object or class instance: own properties by name; reading an
    absent property gives [undefined]. *)
Definition read (o : gmap string Value) (property : string) : Value :=
  default VUndefined (o !! property).

(** [enum Environment]: its values. *)
Definition Environment : list string := ["development"; "production"; "test"].

(** The class-validator decorators used on [EnvironmentVariables]. *)
Inductive Constraint : Type :=
| IsEnum (entity : list string)
| IsNumber
| Min (minValue : Q)
| IsString
| IsNotEmpty
| IsUrl.

(** What the decorators of one property register: its constraints and
    whether [@IsOptional()] is present. *)
Record PropertyMetadata : Type := mkMeta
  { property : string; constraints : list Constraint; isOptional : bool }.

(** The decorated properties of [class EnvironmentVariables]. *)
Definition metadata : list PropertyMetadata :=
  [ mkMeta "NODE_ENV" [IsEnum Environment] false;
    mkMeta "PORT" [IsNumber; Min 1] false;
    mkMeta "DATABASE_URL" [IsString; IsNotEmpty] false;
    mkMeta "CLERK_PUBLISHABLE_KEY" [IsString; IsNotEmpty] false;
    mkMeta "CLERK_SECRET_KEY" [IsString; IsNotEmpty] false;
    mkMeta "CLERK_JWKS_URL" [IsUrl; IsNotEmpty] false;
    mkMeta "CLERK_WEBHOOK_SECRET" [IsString; IsNotEmpty] false;
    mkMeta "REDIS_URL" [IsUrl] true ].

(** The property initialisers: [NODE_ENV = Environment.Development],
    [PORT = 3000]. *)
Definition initial_instance : gmap string Value :=
  <["NODE_ENV" := VString "development"]>
    (<["PORT" := VNumber (Finite 3000)]> ∅).

(** The declared types that TypeScript emits as [design:type] for the
    decorated properties: [Number] for [PORT], [String] for the others
    (a string enum is emitted as [String]). *)
Inductive DesignType : Type := TString | TNumber.

Definition design_type (p : string) : option DesignType :=
  if String.eqb p "PORT" then Some TNumber
  else if existsb (fun m => String.eqb p (property m)) metadata then Some TString
  else None.

Definition nullish (v : Value) : bool :=
  match v with VUndefined | VNull => true | _ => false end.

Section Validation.

(** The built-in conversions [String(value)] and [Number(value)]. *)
Variable ToString : Value -> string.
Variable ToNumber : Value -> Number.

(** [validator.isURL(value, { require_tld: false })]. *)
Variable isURL : string -> bool.

(** class-transformer's implicit conversion of one property value:
    [null] and [undefined] pass through, a property without a declared
    type is copied. *)
Definition convert (t : option DesignType) (v : Value) : Value :=
  if nullish v then v
  else match t with
       | Some TString => VString (ToString v)
       | Some TNumber => VNumber (ToNumber v)
       | None => v
       end.

(** The keys class-transformer never copies. *)
Definition skipped_key (k : string) : bool :=
  String.eqb k "__proto__" || String.eqb k "constructor".

(** [plainToInstance(EnvironmentVariables, config,
    { enableImplicitConversion: true })]: a new instance with its
    initialisers, then every own key of [config] assigned after
    conversion (an [undefined] value is assigned too). *)
Definition plainToInstance (config : gmap string Value) : gmap string Value :=
  map_imap (fun k v => if skipped_key k then None
                       else Some (convert (design_type k) v)) config
  ∪ initial_instance.

(** The predicate behind each decorator. *)
Definition holds (c : Constraint) (v : Value) : bool :=
  match c with
  | IsEnum entity =>
      match v with VString s => existsb (String.eqb s) entity | _ => false end
  | IsNumber =>
      match v with VNumber (Finite _) => true | _ => false end
  | Min minValue =>
      match v with
      | VNumber (Finite q) => Qle_bool minValue q
      | VNumber (Infinity negative) => negb negative
      | _ => false
      end
  | IsString =>
      match v with VString _ => true | _ => false end
  | IsNotEmpty =>
      match v with
      | VString s => negb (String.eqb s "")
      | VNull | VUndefined => false
      | _ => true
      end
  | IsUrl =>
      match v with VString s => isURL s | _ => false end
  end.

(** The constraints of one property that fail on the instance: none when
    the property is optional and its value is [null] or [undefined]. *)
Definition failed (m : PropertyMetadata) (o : gmap string Value) : list Constraint :=
  let value := read o (property m) in
  if isOptional m && nullish value then []
  else List.filter (fun c => negb (holds c value)) (constraints m).

(** A [ValidationError]: the property and its failed constraints. *)
Record ValidationError : Type := mkError
  { error_property : string; error_constraints : list Constraint }.

(** [validateSync(instance, { skipMissingProperties: false })]: one error
    per property with at least one failed constraint. *)
Definition validateSync (o : gmap string Value) : list ValidationError :=
  List.filter (fun e => negb (Nat.eqb (length (error_constraints e)) 0))
    (map (fun m => mkError (property m) (failed m o)) metadata).

(** A thrown [Error]. *)
Record Error : Type := mkJsError { message : string }.

(** [validateEnv(config)]: the instance returned or the error thrown, and
    the lines written with [console.error] after the banner line, one per
    validation error. *)
Definition validateEnv (config : gmap string Value)
  : (Error + gmap string Value) * list ValidationError :=
  let validatedConfig := plainToInstance config in
  let errors := validateSync validatedConfig in
  if Nat.ltb 0 (length errors)
  then (inl (mkJsError "Invalid environment variables"), errors)
  else (inr validatedConfig, []).

(** Reading of the claim's "constraint holds": the decorator's predicate
    is true of the property's value, or the property is optional and
    absent, in which case class-validator does not apply it. *)
Definition constraint_holds (m : PropertyMetadata) (c : Constraint)
    (o : gmap string Value) : Prop :=
  (isOptional m = true /\ nullish (read o (property m)) = true)
  \/ holds c (read o (property m)) = true.

Definition all_constraints_hold (o : gmap string Value) : Prop :=
  forall m c, In m metadata -> In c (constraints m) -> constraint_holds m c o.

End Validation.

End Env.

(** ** user/user.service.ts: updateUser and deleteUser *)

Module UserOps.
Import Users.

Section Service.

Variable trim : string -> string.

(** As for [create], what the database rejects is left open: the schema
    is generated code outside this snapshot. *)
Variable schema_rejects :
  gmap string User -> string -> string -> option string -> option string.
Variable update_rejects :
  gmap string User -> string -> string -> option string -> option string.
Variable delete_rejects : gmap string User -> string -> option string.

(** [prisma.user.update({ where: { id }, data: { email, name } })] at time
    [now]: a missing row is the record-not-found error P2025. The columns
    not named in [data] keep their values; [updatedAt] follows the write. *)
Definition prisma_user_update (now : Z) (where_id data_email : string)
    (data_name : option string) (table : gmap string User)
  : (QueryError + User) * gmap string User :=
  match table !! where_id with
  | None => (inl (KnownRequestError "P2025"), table)
  | Some old =>
      match update_rejects table where_id data_email data_name with
      | Some code => (inl (KnownRequestError code), table)
      | None =>
          let row := mkUser (id old) data_email data_name (createdAt old) now in
          (inr row, <[where_id := row]> table)
      end
  end.

(** [prisma.user.delete({ where: { id } })]. *)
Definition prisma_user_delete (where_id : string) (table : gmap string User)
  : (QueryError + User) * gmap string User :=
  match table !! where_id with
  | None => (inl (KnownRequestError "P2025"), table)
  | Some old =>
      match delete_rejects table where_id with
      | Some code => (inl (KnownRequestError code), table)
      | None => (inr old, delete where_id table)
      end
  end.

(** [updateUser(clerkId, webhookPayload)]: an unknown user is created. *)
Definition updateUser (now : Z) (clerkId : string) (webhookPayload : ClerkUser)
    (table : gmap string User)
  : (QueryError + IUser) * gmap string User * list Effect :=
  let log1 := LoggerLog ("Updating user from webhook: " ++ clerkId) in
  match findUserById clerkId table with
  | None =>
      let '(result, table', effects) :=
        createUser trim schema_rejects now clerkId webhookPayload table in
      (result, table',
       ([log1; FindUnique clerkId;
         LoggerWarn ("User not found for update, creating: " ++ clerkId)]
        ++ effects)%list)
  | Some _ =>
      let email := extractEmailFromWebhook webhookPayload in
      let name := extractNameFromWebhook trim webhookPayload in
      match prisma_user_update now clerkId email name table with
      | (inr user, table') =>
          (inr (mkIUser user None), table',
           [log1; FindUnique clerkId; Update clerkId email name;
            LoggerLog ("User updated: " ++ clerkId)])
      | (inl err, table') =>
          (inl err, table', [log1; FindUnique clerkId; Update clerkId email name])
      end
  end.

(** [deleteUser(clerkId)]: an unknown user is only reported. *)
Definition deleteUser (clerkId : string) (table : gmap string User)
  : (QueryError + unit) * gmap string User * list Effect :=
  let log1 := LoggerLog ("Deleting user from webhook: " ++ clerkId) in
  match findUserById clerkId table with
  | None =>
      (inr tt, table,
       [log1; FindUnique clerkId;
        LoggerWarn ("User not found for deletion: " ++ clerkId)])
  | Some _ =>
      match prisma_user_delete clerkId table with
      | (inr _, table') =>
          (inr tt, table',
           [log1; FindUnique clerkId; Delete clerkId;
            LoggerLog ("User deleted: " ++ clerkId)])
      | (inl err, table') =>
          (inl err, table', [log1; FindUnique clerkId; Delete clerkId])
      end
  end.

End Service.


End UserOps.

(** ** user/utils/user.mapper.ts *)

Module Mapper.
Import Users.

(** [Prisma.UserCreateInput] as the mappers build it. *)
Record UserCreateInput : Type := mkInput
  { input_id : string; input_email : option string; input_name : option string }.

(** [Array.prototype.join]. *)
Fixpoint join (sep : string) (l : list string) : string :=
  match l with
  | [] => ""
  | [x] => x
  | x :: rest => x ++ sep ++ join sep rest
  end.

(** [[a, b].filter(Boolean)] on [string | null] entries: the non-empty
    strings. *)
Definition filter_Boolean (l : list (option string)) : list string :=
  omap (fun v => match v with
                 | Some s => if String.eqb s "" then None else Some s
                 | None => None
                 end) l.

(** [v || null]. *)
Definition or_null (v : option string) : option string :=
  match v with
  | Some s => if String.eqb s "" then None else Some s
  | None => None
  end.

(** [mapClerkWebhookUserToDbUser]: the two language ids are not used by
    the body. *)
Definition mapClerkWebhookUserToDbUser (clerkId appLanguageId contentLanguageId : string)
    (webhookPayload : ClerkUser) : UserCreateInput :=
  let primaryEmail :=
    match email_addresses webhookPayload with
    | Some l => find (is_primary webhookPayload) l
    | None => None
    end in
  mkInput clerkId
    (or_null (primaryEmail ≫= email_address))
    (or_null (Some (join " " (filter_Boolean
       [first_name webhookPayload; last_name webhookPayload])))).

(** The user object of the Clerk backend API, with its camel-case
    fields. *)
Record ApiEmailAddress : Type := mkApiEmail
  { api_id : string; emailAddress : option string }.

Record ApiUser : Type := mkApiUser
  { emailAddresses : option (list ApiEmailAddress);
    primaryEmailAddressId : option string;
    firstName : option string;
    lastName : option string }.

(** [mapClerkUserToDbUser]. *)
Definition mapClerkUserToDbUser (clerkId appLanguageId contentLanguageId : string)
    (clerkUser : ApiUser) : UserCreateInput :=
  let primaryEmail :=
    match emailAddresses clerkUser with
    | Some l =>
        find (fun e => match primaryEmailAddressId clerkUser with
                       | Some p => String.eqb (api_id e) p
                       | None => false
                       end) l
    | None => None
    end in
  mkInput clerkId
    (or_null (primaryEmail ≫= emailAddress))
    (or_null (Some (join " " (filter_Boolean
       [firstName clerkUser; lastName clerkUser])))).

(** The webhook payload that carries the same data as an API user. *)
Definition to_webhook (u : ApiUser) : ClerkUser :=
  mkClerkUser
    ((fun l => map (fun e => mkEmail (api_id e) (emailAddress e)) l)
       <$> emailAddresses u)
    (primaryEmailAddressId u) (firstName u) (lastName u).

End Mapper.

(** ** webhook/webhook.service.ts and webhook/webhook.controller.ts *)

Module Webhook.
Import Nest Users.

(** The values of [enum ClerkWebhookEventType]. *)
Definition USER_CREATED : string := "user.created".
Definition USER_UPDATED : string := "user.updated".
Definition USER_DELETED : string := "user.deleted".
Definition SESSION_CREATED : string := "session.created".
Definition SESSION_ENDED : string := "session.ended".
Definition SESSION_REMOVED : string := "session.removed".
Definition SESSION_REVOKED : string := "session.revoked".

(** [ClerkWebhookEvent]: the fields the service reads. [data] is the
    [ClerkUser] with its [id]; [type] is whatever string the verified
    body carries (the cast to the enum checks nothing). *)
Record ClerkWebhookEvent : Type := mkEvent
  { data_id : string; data : ClerkUser; type : string }.

(** What a call does besides returning: the lines of the webhook logger,
    and the effects of the user service. *)
Inductive Effect : Type :=
| Log (message : string)
| LogError (message : string) (error : QueryError)
| LogVerifyError (message : string)
| Service (e : Users.Effect).

Section Service.

Variable trim : string -> string.
Variable schema_rejects :
  gmap string User -> string -> string -> option string -> option string.
Variable update_rejects :
  gmap string User -> string -> string -> option string -> option string.
Variable delete_rejects : gmap string User -> string -> option string.

(** [handleUserCreated]: the error of the service is logged and thrown
    again. *)
Definition handleUserCreated (now : Z) (userData_id : string) (userData : ClerkUser)
    (table : gmap string User)
  : (QueryError + unit) * gmap string User * list Effect :=
  let log1 := Log ("Handling user.created event for: " ++ userData_id) in
  match createUser trim schema_rejects now userData_id userData table with
  | (inr _, table', effects) =>
      (inr tt, table', (log1 :: map Service effects)%list)
  | (inl err, table', effects) =>
      (inl err, table',
       (log1 :: map Service effects
        ++ [LogError ("Failed to handle user.created for " ++ userData_id ++ ":") err])%list)
  end.

(** [handleUserUpdated]. *)
Definition handleUserUpdated (now : Z) (userData_id : string) (userData : ClerkUser)
    (table : gmap string User)
  : (QueryError + unit) * gmap string User * list Effect :=
  let log1 := Log ("Handling user.updated event for: " ++ userData_id) in
  match UserOps.updateUser trim schema_rejects update_rejects
          now userData_id userData table with
  | (inr _, table', effects) =>
      (inr tt, table',
       (log1 :: map Service effects
        ++ [Log ("User updated successfully: " ++ userData_id)])%list)
  | (inl err, table', effects) =>
      (inl err, table',
       (log1 :: map Service effects
        ++ [LogError ("Failed to handle user.updated for " ++ userData_id ++ ":") err])%list)
  end.

(** [handleUserDeleted]. *)
Definition handleUserDeleted (userData_id : string) (table : gmap string User)
  : (QueryError + unit) * gmap string User * list Effect :=
  let log1 := Log ("Handling user.deleted event for: " ++ userData_id) in
  match UserOps.deleteUser delete_rejects userData_id table with
  | (inr _, table', effects) =>
      (inr tt, table',
       (log1 :: map Service effects
        ++ [Log ("User deleted successfully: " ++ userData_id)])%list)
  | (inl err, table', effects) =>
      (inl err, table',
       (log1 :: map Service effects
        ++ [LogError ("Failed to handle user.deleted for " ++ userData_id ++ ":") err])%list)
  end.

(** [handleWebhook(event)]: the [switch] on [event.type]. *)
Definition handleWebhook (now : Z) (event : ClerkWebhookEvent)
    (table : gmap string User)
  : (QueryError + unit) * gmap string User * list Effect :=
  let log0 := Log ("Processing webhook event: " ++ type event) in
  let '(result, table', effects) :=
    if String.eqb (type event) USER_CREATED
    then handleUserCreated now (data_id event) (data event) table
    else if String.eqb (type event) USER_UPDATED
    then handleUserUpdated now (data_id event) (data event) table
    else if String.eqb (type event) USER_DELETED
    then handleUserDeleted (data_id event) table
    else (inr tt, table, [Log ("Unhandled event type: " ++ type event)]) in
  (result, table', log0 :: effects).

(** The request body as Nest parsed it. *)
Variable Payload : Type.

(** [new Webhook(secret).verify(JSON.stringify(payload), headers)] from
    svix: the verified event, or [None] when it throws. *)
Variable svix_verify :
  string -> Payload -> string -> string -> string -> option ClerkWebhookEvent.

(** What the controller can throw: a Nest HTTP exception or a plain
    [Error]. *)
Inductive Thrown : Type :=
| Http (e : Exception)
| PlainError (message : string).

(** [{ success: true }]. *)
Record Success : Type := mkSuccess { success : bool }.

(** [handleClerkWebhook(payload, svixId, svixTimestamp, svixSignature)]
    with [webhookSecret] the value of
    [configService.get('CLERK_WEBHOOK_SECRET')]. Everything thrown inside
    the [try], by the verification or by the service, is answered with
    the same BadRequestException. *)
Definition handleClerkWebhook (now : Z) (webhookSecret : option string)
    (payload : Payload) (svixId svixTimestamp svixSignature : option string)
    (table : gmap string User)
  : (Thrown + Success) * gmap string User * list Effect :=
  if negb (Js.truthy_string svixId) || negb (Js.truthy_string svixTimestamp)
     || negb (Js.truthy_string svixSignature)
  then (inl (Http (throw BadRequestException "Missing svix headers")), table, [])
  else if negb (Js.truthy_string webhookSecret)
  then (inl (PlainError "CLERK_WEBHOOK_SECRET is not configured"), table, [])
  else
    let invalid := Http (throw BadRequestException "Invalid webhook signature") in
    match svix_verify (default "" webhookSecret) payload
            (default "" svixId) (default "" svixTimestamp)
            (default "" svixSignature) with
    | None => (inl invalid, table, [LogVerifyError "Webhook verification failed:"])
    | Some event =>
        match handleWebhook now event table with
        | (inr _, table', effects) => (inr (mkSuccess true), table', effects)
        | (inl err, table', effects) =>
            (inl invalid, table',
             (effects ++ [LogError "Webhook verification failed:" err])%list)
        end
    end.

End Service.

Definition is_query (e : Effect) : bool :=
  match e with
  | Service (FindUnique _) | Service (Create _ _ _)
  | Service (Update _ _ _) | Service (Delete _) => true
  | _ => false
  end.

End Webhook.

(** ** redis/redis.service.ts: life cycle of the connection *)

Module RedisLife.
Import Redis.

(** What reaches the service from outside: the module hooks of Nest, and
    the events of the client on which [connect] registers handlers. The
    client's own [isReady] flag is maintained by node-redis; its changes
    are [ReadyChanged]. [ModuleInit] carries the configured URL and, when
    [createClient] refuses it, the message of the error it throws. *)
Inductive Stimulus : Type :=
| ModuleInit (redisUrl : option string) (refused : option string)
| ClientError (message : string)
| ClientConnect
| ClientReconnecting
| ReadyChanged (ready : bool)
| ConnectResolved
| ConnectRejected (message : string)
| ModuleDestroy.

(** Lines of the service's logger, and the [quit] call. *)
Inductive Trace : Type :=
| Warn (message : string)
| Error (message : string)
| Info (message : string)
| Quit.

(** One stimulus. [onModuleInit] without a URL only warns; with one it
    creates the client (not ready, nothing sent) and registers the
    handlers, after which [connect] proceeds through the client's events
    and ends resolved or rejected, which is only logged. Events of a
    client that was never created cannot occur and change nothing. *)
Definition react (x : Stimulus) (s : RedisService) : RedisService * list Trace :=
  match x with
  | ModuleInit redisUrl refused =>
      if negb (Js.truthy_string redisUrl)
      then (s, [Warn "REDIS_URL not configured. Redis features disabled."])
      else match refused with
           | Some message =>
               (s, [Error ("Failed to initialize Redis: " ++ message)])
           | None => (mkService (Some (mkClient false [])) (isConnected s), [])
           end
  | ClientError message =>
      match client s with
      | Some _ => (mkService (client s) false,
                   [Error ("Redis Client Error: " ++ message)])
      | None => (s, [])
      end
  | ClientConnect =>
      match client s with
      | Some _ => (mkService (client s) true, [Info "Redis client connected"])
      | None => (s, [])
      end
  | ClientReconnecting =>
      match client s with
      | Some _ => (s, [Warn "Redis reconnecting..."])
      | None => (s, [])
      end
  | ReadyChanged ready =>
      match client s with
      | Some c => (mkService (Some (mkClient ready (sent c))) (isConnected s), [])
      | None => (s, [])
      end
  | ConnectResolved =>
      match client s with
      | Some _ => (s, [Info "✅ Redis connected successfully"])
      | None => (s, [])
      end
  | ConnectRejected message =>
      match client s with
      | Some _ => (s, [Error ("Failed to initialize Redis: " ++ message)])
      | None => (s, [])
      end
  | ModuleDestroy =>
      if truthy (client_isReady s)
      then (s, [Quit; Info "Redis connection closed"])
      else (s, [])
  end.

Definition run (xs : list Stimulus) (s : RedisService) : RedisService :=
  foldl (fun s x => fst (react x s)) s xs.

(** The service as constructed: [client = null], [isConnected = false]. *)
Definition initial : RedisService := mkService None false.

Definition configures (x : Stimulus) : bool :=
  match x with
  | ModuleInit redisUrl _ => Js.truthy_string redisUrl
  | _ => false
  end.

Definition is_connect (x : Stimulus) : bool :=
  match x with ClientConnect => true | _ => false end.

End RedisLife.

(** ** redis/redis.controller.ts: RedisController *)

Module RedisController.
Import Nest Redis Env.

(** [s.split(sep)] for a separator of at least one character: [skip]
    counts the characters of a separator just matched that are still to
    be dropped, [cur] is the piece being read, reversed. *)
Fixpoint split_from (sep : string) (skip : nat) (cur : list ascii) (s : string)
  : list string :=
  match s with
  | EmptyString => [string_of_list_ascii (rev cur)]
  | String c rest =>
      match skip with
      | S k => split_from sep k cur rest
      | O =>
          if String.prefix sep s
          then string_of_list_ascii (rev cur)
               :: split_from sep (String.length sep - 1) [] rest
          else split_from sep 0 (c :: cur) rest
      end
  end.

Definition split_str (sep s : string) : list string := split_from sep 0 [] s.

(** [CacheMetricsResponse]. [totalKeys] is whatever [dbSize()] resolved
    to. *)
Record CacheMetricsResponse : Type := mkMetrics
  { metrics_isAvailable : bool;
    metrics_message : string;
    totalKeys : Reply;
    memoryUsed : string;
    uptime : Number;
    connectedClients : Number }.

(** What can be thrown inside a [try] of the controller: the guard of
    the service threw, the client rejected the command with a message, or
    a reply that is not a string was split. *)
Inductive Failure : Type :=
| Guarded (e : Exception)
| Rejected (message : string)
| NotAString.

(** The logger of the controller: [logger.error] prints its label
    followed by the message of the error caught. *)
Inductive Trace : Type :=
| LogError (label : string) (error : Failure)
| LogInfo (message : string).

(** [n || 0] on a number: NaN and zero are falsy. *)
Definition or_zero (n : Number) : Number :=
  match n with
  | NaN => Finite 0
  | Finite q => if Qeq_bool q 0 then Finite 0 else Finite q
  | Infinity negative => Infinity negative
  end.

(** [infoLines.find((line) => line.startsWith(key))?.split(':')[1] || '0']. *)
Definition info_field (key : string) (infoLines : list string) : string :=
  Js.or_default
    (find (String.prefix key) infoLines ≫= fun line => nth_error (Js.split ":"%char line) 1)
    "0".

Section Controller.

(** The server's answer to a command, or the message with which the
    client rejects it. *)
Variable server : Command -> string + Reply.

(** The built-in [parseInt]. *)
Variable parseInt : string -> Number.

(** A data operation of [RedisService] against a client that can reject:
    the guard, then the one command. *)
Definition invoke (op : Operation) (s : RedisService)
  : (Failure + Reply) * RedisService :=
  match getClientOrThrow s with
  | inl e => (inl (Guarded e), s)
  | inr c =>
      let cmd := command_of op in
      let s' := mkService (Some (send c cmd)) (isConnected s) in
      match server cmd with
      | inl message => (inl (Rejected message), s')
      | inr r => (inr (returned op r), s')
      end
  end.

(** [getMetrics()]. Both service calls are started before either is
    awaited; a failure of either, or an [info] that is not a string, ends
    in the [catch]. *)
Definition getMetrics (s : RedisService)
  : (Exception + CacheMetricsResponse) * RedisService * list Trace :=
  if negb (isAvailable s)
  then (inr (mkMetrics false "Redis is not configured or not connected"
               (RInteger 0) "0" (Finite 0) (Finite 0)), s, [])
  else
    let '(r1, s1) := invoke dbSize s in
    let '(r2, s2) := invoke (info (Some "server,memory,clients")) s1 in
    let failed error :=
      (inl (throw BadRequestException "Failed to retrieve cache metrics"), s2,
       [LogError "Failed to get cache metrics: " error]) in
    match r1, r2 with
    | inl f, _ => failed f
    | inr _, inl f => failed f
    | inr dbSize_, inr (RBulk info_) =>
        let infoLines := split_str (String "013" (String "010" "")) info_ in
        (inr (mkMetrics true "Redis is healthy" dbSize_
                (info_field "used_memory_human:" infoLines)
                (or_zero (parseInt (info_field "uptime_in_seconds:" infoLines)))
                (or_zero (parseInt (info_field "connected_clients:" infoLines)))),
         s2, [])
    | inr _, inr _ => failed NotAString
    end.

(** [{ message, cleared }]. *)
Record Refreshed : Type := mkRefreshed
  { refreshed_message : string; cleared : bool }.

(** [refreshCache()]. *)
Definition refreshCache (s : RedisService)
  : (Exception + Refreshed) * RedisService * list Trace :=
  if negb (isAvailable s)
  then (inl (throw BadRequestException "Redis is not available"), s, [])
  else
    match invoke flushAll s with
    | (inr _, s') =>
        (inr (mkRefreshed "Cache cleared successfully" true), s',
         [LogInfo "Cache refreshed successfully"])
    | (inl f, s') =>
        (inl (throw BadRequestException "Failed to refresh cache"), s',
         [LogError "Failed to refresh cache: " f])
    end.

End Controller.

(** The two commands of [getMetrics], in the order they are sent. *)
Definition metrics_commands : list Command :=
  [DBSIZE; INFO (Some "server,memory,clients")].

Definition CRLF : string := String "013" (String "010" "").

(** [healthCheck()]: [{ status, isAvailable }]. *)
Definition healthCheck (s : RedisService) : string * bool :=
  (if isAvailable s then "connected" else "disconnected", isAvailable s).

End RedisController.

(** ** auth/clerk.strategy.ts: the constructor *)

Module ClerkBoot.
Import Env.

(** JavaScript truthiness of a configuration value. *)
Definition truthy (v : Value) : bool :=
  match v with
  | VUndefined | VNull => false
  | VBoolean b => b
  | VNumber NaN => false
  | VNumber (Finite q) => negb (Qeq_bool q 0)
  | VNumber (Infinity _) => true
  | VString s => negb (String.eqb s "")
  end.

(** A value that is a non-empty string. *)
Definition nonempty_string (v : Value) : Prop :=
  exists s, v = VString s /\ s <> "".

(** The constructor of [ClerkStrategy], given what
    [configService.get('CLERK_JWKS_URL')] returned: it throws without a
    URL and otherwise builds the JWKS client on it. *)
Definition construct (jwksUrl : Value) : Error + Value :=
  if negb (truthy jwksUrl)
  then inl (mkJsError "CLERK_JWKS_URL is not defined in the configuration")
  else inr jwksUrl.

End ClerkBoot.

(** ** Predicates on strings used to state properties *)

Module Text.

(** Whether the character occurs in the string. *)
Fixpoint has_char (c : ascii) (s : string) : bool :=
  match s with
  | EmptyString => false
  | String d rest => Ascii.eqb d c || has_char c rest
  end.

End Text.

(** ** Classifiers used to state properties *)

Module Checks.

(** The effect is an attempt to verify a token. *)
Definition is_verify {VerifyError : Type} (e : Clerk.Effect VerifyError) : bool :=
  match e with Clerk.JwtVerify _ => true | _ => false end.

(** The exception carries a client-error or server-error status. *)
Definition is_error_status (e : Nest.Exception) : bool :=
  Z.leb 400 (Nest.getStatus (Nest.exn_class e))
  && Z.ltb (Nest.getStatus (Nest.exn_class e)) 600.

End Checks.

(** ** The planned Session Stream Relay

    The snapshot holds no implementation of the relay (thread registry,
    execution state store, event multiplexer, approval coordinator,
    orchestrator): every definition of this module is written from the
    contracts of the specification. *)

Module Relay.

(** Modelled from the spec: the error taxonomy of the relay, which has no
    source file. *)
Inductive RelayError : Type :=
| NotFoundError
| AuthorizationError
| ConflictError
| BackpressureError
| ResourceGoneError
| EngineFailure
| StorageFailure.

#[export] Instance RelayError_eq_dec : EqDecision RelayError.
Proof. solve_decision. Defined.

(** *** Execution State Store *)

(** Modelled from the spec: the ExecutionCheckpoint record, identified by
    thread and sequence number; the blob is opaque. *)
Record ExecutionCheckpoint : Type := mkCheckpoint
  { sequence_number : nat;
    blob : string;
    digest : string;
    byte_size : nat;
    written_at : Z }.

(** Modelled from the spec: the state of the Execution State Store, which
    has no source file. Each thread has its committed checkpoints, oldest
    first, and the advisory lock scoped to the thread, held by the writer
    whose append is in flight. *)
Record Store : Type := mkStore
  { checkpoints : gmap string (list ExecutionCheckpoint);
    in_flight : gmap string nat }.

Definition empty_store : Store := mkStore ∅ ∅.

Definition history (T : string) (st : Store) : list ExecutionCheckpoint :=
  default [] (checkpoints st !! T).

(** The current maximum sequence of a thread; 0 when it has none, so the
    first checkpoint of a thread gets number 1. *)
Definition max_sequence (l : list ExecutionCheckpoint) : nat :=
  foldr Nat.max 0 (map sequence_number l).

(** Modelled from the spec: [latest_checkpoint], absent from the source.
    The committed checkpoint of highest sequence, [None] for a fresh
    thread. *)
Fixpoint highest (l : list ExecutionCheckpoint) : option ExecutionCheckpoint :=
  match l with
  | [] => None
  | c :: rest =>
      match highest rest with
      | Some d => if Nat.ltb (sequence_number c) (sequence_number d) then Some d else Some c
      | None => Some c
      end
  end.

Definition latest_checkpoint (T : string) (st : Store) : option ExecutionCheckpoint :=
  highest (history T st).

(** Retention policies of [compact]: keep the last K checkpoints, or the
    newest checkpoints within a byte budget. *)
Inductive Policy : Type :=
| KeepLast (K : nat)
| ByteBudget (bytes : nat).

(** The newest checkpoints of a list given newest first that fit the
    budget. *)
Fixpoint within_budget (bytes : nat) (newest_first : list ExecutionCheckpoint)
  : list ExecutionCheckpoint :=
  match newest_first with
  | [] => []
  | c :: rest =>
      if Nat.leb (byte_size c) bytes
      then c :: within_budget (bytes - byte_size c) rest
      else []
  end.

(** What a policy retains of a history given oldest first. *)
Definition retained (policy : Policy) (l : list ExecutionCheckpoint)
  : list ExecutionCheckpoint :=
  match policy with
  | KeepLast K => drop (length l - K) l
  | ByteBudget bytes => rev (within_budget bytes (rev l))
  end.

(** The window kept by [compact]: what the policy retains, and in any
    case the current latest checkpoint. *)
Definition compacted (policy : Policy) (l : list ExecutionCheckpoint)
  : list ExecutionCheckpoint :=
  match retained policy l with
  | [] => drop (length l - 1) l
  | kept => kept
  end.

Section StoreOps.

(** The integrity digest of a blob. *)
Variable digest_of : string -> string.

(** Modelled from the spec: the first half of [append_checkpoint], absent
    from the source. Writer [w] takes the advisory lock of the thread;
    [ConflictError] if an append for the thread is already in flight. *)
Definition begin_append (w : nat) (T : string) (st : Store) : RelayError + Store :=
  match in_flight st !! T with
  | Some _ => inl ConflictError
  | None => inr (mkStore (checkpoints st) (<[T := w]> (in_flight st)))
  end.

Definition release (T : string) (st : Store) : Store :=
  mkStore (checkpoints st) (delete T (in_flight st)).

(** Modelled from the spec: the second half of [append_checkpoint]. The
    lock holder writes the checkpoint right after the current maximum
    sequence, with its digest, and releases the lock. When the durable
    backend is unavailable ([storage_up = false]) nothing is written and
    the call fails with [StorageFailure]; the lock is released. A writer
    that does not hold the lock gets [ConflictError]. *)
Definition commit_append (w : nat) (T : string) (b : string) (now : Z)
    (storage_up : bool) (st : Store) : (RelayError + nat) * Store :=
  match in_flight st !! T with
  | Some holder =>
      if Nat.eqb holder w then
        if storage_up then
          let n := S (max_sequence (history T st)) in
          let c := mkCheckpoint n b (digest_of b) (String.length b) now in
          (inr n, release T (mkStore (<[T := (history T st ++ [c])%list]> (checkpoints st))
                                     (in_flight st)))
        else (inl StorageFailure, release T st)
      else (inl ConflictError, st)
  | None => (inl ConflictError, st)
  end.

(** Modelled from the spec: [append_checkpoint(thread_id, blob)] as one
    uninterrupted call. *)
Definition append_checkpoint (w : nat) (T : string) (b : string) (now : Z)
    (storage_up : bool) (st : Store) : (RelayError + nat) * Store :=
  match begin_append w T st with
  | inl e => (inl e, st)
  | inr st1 => commit_append w T b now storage_up st1
  end.

(** Modelled from the spec: [compact(thread_id, policy)], absent from the
    source. It takes the same per-thread lock as an append, so it fails
    with [ConflictError] while one is in flight. *)
Definition compact (T : string) (policy : Policy) (st : Store)
  : (RelayError + unit) * Store :=
  match in_flight st !! T with
  | Some _ => (inl ConflictError, st)
  | None =>
      match checkpoints st !! T with
      | Some l => (inr tt, mkStore (<[T := compacted policy l]> (checkpoints st))
                                   (in_flight st))
      | None => (inr tt, st)
      end
  end.

(** The calls a client of the store can make, and what each returns. *)
Inductive StoreCall : Type :=
| Begin (w : nat) (T : string)
| Commit (w : nat) (T : string) (b : string) (now : Z) (storage_up : bool)
| Compact (T : string) (policy : Policy).

Inductive StoreReturn : Type :=
| Began (T : string)
| Appended (T : string) (n : nat)
| Compacted (T : string)
| Failed (T : string) (e : RelayError).

Definition store_step (c : StoreCall) (st : Store) : StoreReturn * Store :=
  match c with
  | Begin w T =>
      match begin_append w T st with
      | inl e => (Failed T e, st)
      | inr st' => (Began T, st')
      end
  | Commit w T b now up =>
      match commit_append w T b now up st with
      | (inl e, st') => (Failed T e, st')
      | (inr n, st') => (Appended T n, st')
      end
  | Compact T policy =>
      match compact T policy st with
      | (inl e, st') => (Failed T e, st')
      | (inr _, st') => (Compacted T, st')
      end
  end.

(** A run of calls in the order the store serves them. *)
Fixpoint store_run (cs : list StoreCall) (st : Store) : list StoreReturn * Store :=
  match cs with
  | [] => ([], st)
  | c :: rest =>
      let '(r, st1) := store_step c st in
      let '(rs, st2) := store_run rest st1 in
      (r :: rs, st2)
  end.

(** The sequence numbers handed out for thread [T], in order. *)
Fixpoint appended (T : string) (rs : list StoreReturn) : list nat :=
  match rs with
  | [] => []
  | Appended T' n :: rest =>
      if String.eqb T' T then n :: appended T rest else appended T rest
  | _ :: rest => appended T rest
  end.

(** Two clients appending to the same thread at once. Each attempt is the
    two store calls of [append_checkpoint]; the schedule says whose call
    the store serves next ([true]: the first attempt). *)
Record Attempt : Type := mkAttempt
  { writer : nat; payload : string; started : Z; backend_up : bool }.

Inductive Phase : Type :=
| Idle
| Holding
| Finished (out : RelayError + nat).

Definition attempt_step (T : string) (a : Attempt) (ph : Phase) (st : Store)
  : Phase * Store :=
  match ph with
  | Idle =>
      match begin_append (writer a) T st with
      | inl e => (Finished (inl e), st)
      | inr st' => (Holding, st')
      end
  | Holding =>
      let '(out, st') :=
        commit_append (writer a) T (payload a) (started a) (backend_up a) st in
      (Finished out, st')
  | Finished _ => (ph, st)
  end.

Fixpoint race (T : string) (a b : Attempt) (schedule : list bool)
    (pa pb : Phase) (st : Store) : Phase * Phase * Store :=
  match schedule with
  | [] => (pa, pb, st)
  | true :: rest =>
      let '(pa', st') := attempt_step T a pa st in race T a b rest pa' pb st'
  | false :: rest =>
      let '(pb', st') := attempt_step T b pb st in race T a b rest pa pb' st'
  end.

End StoreOps.

(** The invariant of a thread's history: its newest checkpoint carries
    the maximum sequence number. *)
Definition newest_is_max (l : list ExecutionCheckpoint) : Prop :=
  max_sequence l = from_option sequence_number 0 (last l).

Definition store_ok (st : Store) : Prop :=
  forall T, newest_is_max (history T st).

(** *** Event Multiplexer *)

(** Modelled from the spec: the structured events of a stream. *)
Inductive EventType : Type :=
| status | content | tool_start | tool_end | itinerary_update
| interrupt | error | done.

Record Event : Type := mkEvent
  { ev_type : EventType; ev_sequence : nat; ev_data : string }.

(** Why a session was closed. *)
Inductive CloseReason : Type := Completed | Errored | Cancelled.

Inductive Connection : Type :=
| Attached
| Disconnected (e : RelayError)
| Left.

(** Modelled from the spec: one subscribed client connection. [pending]
    is its bounded buffer, [observed] the events already handed to the
    client; the cursor of the subscriber is [from_sequence] plus the
    number of observed events. *)
Record Subscriber : Type := mkSubscriber
  { from_sequence : nat;
    pending : list Event;
    observed : list Event;
    connection : Connection }.

(** Modelled from the spec: the StreamSession record, absent from the
    source. The session token is the position of the session in the
    multiplexer. [published] is every event published so far, [replay]
    the bounded replay buffer, [producer_live] whether the producer
    handle is present. Sequence numbers of a stream start at 0. *)
Record StreamSession : Type := mkSession
  { thread_id : string;
    producer_live : bool;
    terminal : option EventType;
    next_sequence : nat;
    published : list Event;
    replay : list Event;
    subscribers : list Subscriber }.

Record Multiplexer : Type := mkMux { sessions : list StreamSession }.

Definition empty_mux : Multiplexer := mkMux [].

Definition is_live_for (T : string) (s : StreamSession) : bool :=
  producer_live s && String.eqb (thread_id s) T.

(** Modelled from the spec: [open(thread_id)], absent from the source.
    [ConflictError] if a live producer exists for the thread, otherwise a
    fresh session whose token is returned. *)
Definition open (T : string) (m : Multiplexer) : (RelayError + nat) * Multiplexer :=
  if existsb (is_live_for T) (sessions m)
  then (inl ConflictError, m)
  else (inr (length (sessions m)),
        mkMux (sessions m ++ [mkSession T true None 0 [] [] []])%list).

Definition terminal_event (reason : CloseReason) : EventType :=
  match reason with Completed => done | _ => error end.

(** Modelled from the spec: [close(session, reason)], absent from the
    source: marks the stream terminal and releases the live-producer
    slot. Persisting the final checkpoint is the orchestrator's part. *)
Definition close (tok : nat) (reason : CloseReason) (m : Multiplexer)
  : (RelayError + unit) * Multiplexer :=
  match sessions m !! tok with
  | Some s =>
      if producer_live s
      then (inr tt,
            mkMux (<[tok := mkSession (thread_id s) false
                              (Some (terminal_event reason)) (next_sequence s)
                              (published s) (replay s) (subscribers s)]>
                     (sessions m)))
      else (inl ConflictError, m)
  | None => (inl NotFoundError, m)
  end.

Section MuxOps.

(** The replay window (number of events retained) and the capacity of a
    subscriber's buffer. *)
Variable window : nat.
Variable capacity : nat.

(** Delivery of a published event to one subscriber: a full buffer
    disconnects the subscriber with [BackpressureError]. *)
Definition deliver (e : Event) (sub : Subscriber) : Subscriber :=
  match connection sub with
  | Attached =>
      if Nat.leb (from_sequence sub) (ev_sequence e) then
        if Nat.ltb (length (pending sub)) capacity
        then mkSubscriber (from_sequence sub) (pending sub ++ [e])%list
                          (observed sub) Attached
        else mkSubscriber (from_sequence sub) (pending sub) (observed sub)
                          (Disconnected BackpressureError)
      else sub
  | _ => sub
  end.

(** The last [window] events of a buffer. *)
Definition bounded (l : list Event) : list Event := drop (length l - window) l.

(** Modelled from the spec: [publish(session, event)], absent from the
    source: assigns the next sequence number, appends to the bounded
    replay buffer and delivers to every current subscriber. *)
Definition publish (tok : nat) (ty : EventType) (data : string) (m : Multiplexer)
  : (RelayError + nat) * Multiplexer :=
  match sessions m !! tok with
  | Some s =>
      if producer_live s then
        let e := mkEvent ty (next_sequence s) data in
        (inr (next_sequence s),
         mkMux (<[tok := mkSession (thread_id s) true (terminal s)
                           (S (next_sequence s))
                           (published s ++ [e])%list
                           (bounded (replay s ++ [e])%list)
                           (map (deliver e) (subscribers s))]>
                  (sessions m)))
      else (inl ConflictError, m)
  | None => (inl NotFoundError, m)
  end.

(** The sequence number of the oldest retained event. *)
Definition window_start (s : StreamSession) : nat :=
  next_sequence s - length (replay s).

(** Modelled from the spec: [subscribe(session, from_sequence)], absent
    from the source: [ResourceGoneError] if [from_sequence] precedes the
    replay window, otherwise a new subscriber that first catches up from
    the replay buffer; its position among the subscribers is returned. *)
Definition subscribe (tok : nat) (from : nat) (m : Multiplexer)
  : (RelayError + nat) * Multiplexer :=
  match sessions m !! tok with
  | Some s =>
      if Nat.ltb from (window_start s) then (inl ResourceGoneError, m)
      else
        let catch_up :=
          List.filter (fun e => Nat.leb from (ev_sequence e)) (replay s) in
        (inr (length (subscribers s)),
         mkMux (<[tok := mkSession (thread_id s) (producer_live s) (terminal s)
                           (next_sequence s) (published s) (replay s)
                           (subscribers s ++ [mkSubscriber from catch_up [] Attached])%list]>
                  (sessions m)))
  | None => (inl NotFoundError, m)
  end.

(** The subscriber takes the next event from its buffer. *)
Definition take_next (sub : Subscriber) : Subscriber :=
  match connection sub, pending sub with
  | Attached, e :: rest =>
      mkSubscriber (from_sequence sub) rest (observed sub ++ [e])%list Attached
  | _, _ => sub
  end.

(** The subscriber disconnects: it leaves the fan-out set. *)
Definition leave (sub : Subscriber) : Subscriber :=
  match connection sub with
  | Attached => mkSubscriber (from_sequence sub) (pending sub) (observed sub) Left
  | _ => sub
  end.

Definition on_subscriber (f : Subscriber -> Subscriber) (tok i : nat)
    (m : Multiplexer) : Multiplexer :=
  match sessions m !! tok with
  | Some s =>
      mkMux (<[tok := mkSession (thread_id s) (producer_live s) (terminal s)
                        (next_sequence s) (published s) (replay s)
                        (alter f i (subscribers s))]>
               (sessions m))
  | None => m
  end.

(** The calls made on the multiplexer by producers and subscribers. *)
Inductive MuxCall : Type :=
| Open (T : string)
| Close (tok : nat) (reason : CloseReason)
| Publish (tok : nat) (ty : EventType) (data : string)
| Subscribe (tok : nat) (from : nat)
| Receive (tok i : nat)
| Unsubscribe (tok i : nat).

Definition mux_step (c : MuxCall) (m : Multiplexer) : Multiplexer :=
  match c with
  | Open T => snd (open T m)
  | Close tok reason => snd (close tok reason m)
  | Publish tok ty data => snd (publish tok ty data m)
  | Subscribe tok from => snd (subscribe tok from m)
  | Receive tok i => on_subscriber take_next tok i m
  | Unsubscribe tok i => on_subscriber leave tok i m
  end.

Definition mux_run (cs : list MuxCall) (m : Multiplexer) : Multiplexer :=
  foldl (fun m c => mux_step c m) m cs.

(** The multiplexers that calls can produce from the empty one. *)
Definition mux_reachable (m : Multiplexer) : Prop :=
  exists cs, m = mux_run cs empty_mux.

End MuxOps.

(** Invariants of the multiplexer. *)

(** The event at position [i] of a stream carries sequence number [i]. *)
Definition indexed (l : list Event) : Prop :=
  forall i e, l !! i = Some e -> ev_sequence e = i.

(** What a subscriber has been given (observed or still buffered) is an
    initial part of the published stream from its [from_sequence] on, and
    all of it as long as the subscriber is attached. *)
Definition subscriber_ok (pub : list Event) (sub : Subscriber) : Prop :=
  (observed sub ++ pending sub)%list `prefix_of` drop (from_sequence sub) pub
  /\ (connection sub = Attached ->
      (observed sub ++ pending sub)%list = drop (from_sequence sub) pub).

Definition session_ok (s : StreamSession) : Prop :=
  next_sequence s = length (published s)
  /\ indexed (published s)
  /\ replay s `suffix_of` published s
  /\ Forall (subscriber_ok (published s)) (subscribers s).

(** At most one live producer per thread. *)
Definition one_producer (m : Multiplexer) : Prop :=
  forall i j si sj,
    sessions m !! i = Some si -> sessions m !! j = Some sj ->
    producer_live si = true -> producer_live sj = true ->
    thread_id si = thread_id sj -> i = j.

Definition mux_ok (m : Multiplexer) : Prop :=
  Forall session_ok (sessions m) /\ one_producer m.

(** *** Interrupt/Approval Coordinator *)

Inductive Resolution : Type := PENDING | APPROVED | REJECTED | EXPIRED.

#[export] Instance Resolution_eq_dec : EqDecision Resolution.
Proof. solve_decision. Defined.

(** A decision that resolves a request: the external approval or
    rejection, or the elapsed deadline reported by the timer service. *)
Inductive Decision : Type := approve | reject | deadline_elapsed.

Definition resolution_of (d : Decision) : Resolution :=
  match d with
  | approve => APPROVED
  | reject => REJECTED
  | deadline_elapsed => EXPIRED
  end.

(** Modelled from the spec: the ApprovalRequest record, absent from the
    source; its identity is the key under which the coordinator holds it. *)
Record ApprovalRequest : Type := mkApproval
  { action : string;
    requested_at : Z;
    deadline : Z;
    resolution : Resolution }.

(** Modelled from the spec: the state of the coordinator: the requests by
    [(thread_id, checkpoint_sequence)] and the keys on which an execution
    is parked in [await_resolution]. *)
Record Coordinator : Type := mkCoordinator
  { requests : gmap (string * nat) ApprovalRequest;
    parked : gset (string * nat) }.

Definition empty_coordinator : Coordinator := mkCoordinator ∅ ∅.

(** Modelled from the spec: [request_approval], absent from the source.
    A request is created PENDING; asking again for an identity that
    exists returns the existing record, which is never overwritten. *)
Definition request_approval (T : string) (n : nat) (act : string) (now dl : Z)
    (c : Coordinator) : ApprovalRequest * Coordinator :=
  match requests c !! (T, n) with
  | Some r => (r, c)
  | None =>
      let r := mkApproval act now dl PENDING in
      (r, mkCoordinator (<[(T, n) := r]> (requests c)) (parked c))
  end.

(** Modelled from the spec: [resolve(thread_id, sequence, decision)],
    absent from the source: [NotFoundError] if there is no request,
    [ConflictError] if it is already resolved; the first writer wins and
    the parked execution is released. *)
Definition resolve (T : string) (n : nat) (d : Decision) (c : Coordinator)
  : (RelayError + Resolution) * Coordinator :=
  match requests c !! (T, n) with
  | None => (inl NotFoundError, c)
  | Some r =>
      match resolution r with
      | PENDING =>
          let r' := mkApproval (action r) (requested_at r) (deadline r)
                               (resolution_of d) in
          (inr (resolution_of d),
           mkCoordinator (<[(T, n) := r']> (requests c)) (parked c ∖ {[(T, n)]}))
      | _ => (inl ConflictError, c)
      end
  end.

(** What the suspension point yields. *)
Inductive Awaited : Type :=
| Decided (r : Resolution)
| Suspended
| Unknown.

(** Modelled from the spec: [await_resolution]: parks the caller while
    the request is PENDING. *)
Definition await_resolution (T : string) (n : nat) (c : Coordinator)
  : Awaited * Coordinator :=
  match requests c !! (T, n) with
  | None => (Unknown, c)
  | Some r =>
      match resolution r with
      | PENDING => (Suspended, mkCoordinator (requests c) (parked c ∪ {[(T, n)]}))
      | res => (Decided res, c)
      end
  end.

(** Modelled from the spec: cancellation of a wait (caller disconnect):
    the waiter is released, the request is left as it is. *)
Definition cancel_wait (T : string) (n : nat) (c : Coordinator) : Coordinator :=
  mkCoordinator (requests c) (parked c ∖ {[(T, n)]}).

Inductive CoordinatorCall : Type :=
| RequestApproval (T : string) (n : nat) (act : string) (now dl : Z)
| Resolve (T : string) (n : nat) (d : Decision)
| Await (T : string) (n : nat)
| CancelWait (T : string) (n : nat).

(** What a call reports about [resolve]: [None] for the other calls. *)
Definition coordinator_step (call : CoordinatorCall) (c : Coordinator)
  : option (RelayError + Resolution) * Coordinator :=
  match call with
  | RequestApproval T n act now dl => (None, snd (request_approval T n act now dl c))
  | Resolve T n d => let '(r, c') := resolve T n d c in (Some r, c')
  | Await T n => (None, snd (await_resolution T n c))
  | CancelWait T n => (None, cancel_wait T n c)
  end.

(** A run of calls; for every [resolve] on the key [k] its outcome, in
    order. *)
Fixpoint coordinator_run (k : string * nat) (calls : list CoordinatorCall)
    (c : Coordinator) : list (RelayError + Resolution) * Coordinator :=
  match calls with
  | [] => ([], c)
  | call :: rest =>
      let '(r, c1) := coordinator_step call c in
      let '(rs, c2) := coordinator_run k rest c1 in
      match call, r with
      | Resolve T n _, Some out =>
          if bool_decide ((T, n) = k) then (out :: rs, c2) else (rs, c2)
      | _, _ => (rs, c2)
      end
  end.

Definition succeeded (out : RelayError + Resolution) : bool :=
  match out with inr _ => true | inl _ => false end.

(** *** Thread Registry and Session Orchestrator *)

Inductive Lifecycle : Type :=
| ACTIVE | AWAITING_APPROVAL | COMPLETED | FAILED | ABANDONED.

(** Modelled from the spec: the ThreadRecord of the registry, absent from
    the source. *)
Record ThreadRecord : Type := mkThread
  { owner : string;
    title : string;
    created_at : Z;
    last_activity : Z;
    lifecycle : Lifecycle }.

(** Modelled from the spec: [touch(thread_id, state)]. *)
Definition touch (T : string) (state : Lifecycle) (now : Z)
    (reg : gmap string ThreadRecord) : gmap string ThreadRecord :=
  match reg !! T with
  | Some r => <[T := mkThread (owner r) (title r) (created_at r) now state]> reg
  | None => reg
  end.

(** The shared state of the relay. *)
Record Relay : Type := mkRelay
  { registry : gmap string ThreadRecord;
    store : Store;
    mux : Multiplexer }.

Section Orchestrator.

Variable digest_of : string -> string.

(** Modelled from the spec: step 6 of the orchestrator at a natural
    completion point, absent from the source. The final checkpoint is
    appended first; only when it is committed is the session closed as
    completed and the thread marked COMPLETED. When the append fails the
    turn is aborted: the session is closed with an error, which frees the
    producer slot, and the registry is not touched. *)
Definition complete_turn (w : nat) (T : string) (tok : nat) (final : string)
    (now : Z) (storage_up : bool) (r : Relay) : (RelayError + nat) * Relay :=
  match append_checkpoint digest_of w T final now storage_up (store r) with
  | (inr n, st') =>
      (inr n, mkRelay (touch T COMPLETED now (registry r)) st'
                      (snd (close tok Completed (mux r))))
  | (inl e, st') =>
      (inl e, mkRelay (registry r) st' (snd (close tok Errored (mux r))))
  end.

End Orchestrator.

End Relay.

(** ** Sample inputs for running the definitions *)

Module Samples.

(** Conversions for running the validation on concrete records:
    digits are read as a natural number, anything else is NaN. *)
Fixpoint digits_value (acc : Z) (s : string) : option Z :=
  match s with
  | EmptyString => Some acc
  | String c rest =>
      let n := Z.of_nat (nat_of_ascii c) in
      if ((48 <=? n) && (n <=? 57))%Z
      then digits_value (10 * acc + (n - 48))%Z rest
      else None
  end.

Definition sample_ToNumber (v : Env.Value) : Env.Number :=
  match v with
  | Env.VString (String c rest) =>
      match digits_value 0 (String c rest) with
      | Some z => Env.Finite (inject_Z z)
      | None => Env.NaN
      end
  | Env.VString EmptyString => Env.Finite 0
  | Env.VNumber n => n
  | Env.VBoolean b => Env.Finite (if b then 1 else 0)
  | _ => Env.NaN
  end.

Definition sample_ToString (v : Env.Value) : string :=
  match v with Env.VString s => s | _ => "?" end.

Definition sample_isURL (s : string) : bool :=
  String.prefix "http://" s || String.prefix "https://" s || String.prefix "redis://" s.

Definition sample_env : gmap string Env.Value :=
  <["DATABASE_URL" := Env.VString "postgres://db"]>
  (<["CLERK_PUBLISHABLE_KEY" := Env.VString "pk_test"]>
  (<["CLERK_SECRET_KEY" := Env.VString "sk_test"]>
  (<["CLERK_JWKS_URL" := Env.VString "https://clerk.example/jwks"]>
  (<["CLERK_WEBHOOK_SECRET" := Env.VString "whsec"]>
  (<["PORT" := Env.VString "3006"]> ∅))))).

Definition sample_stream : list Relay.MuxCall :=
  [Relay.Open "t1";
   Relay.Publish 0 Relay.status "a";
   Relay.Publish 0 Relay.content "b";
   Relay.Subscribe 0 1;
   Relay.Publish 0 Relay.content "c";
   Relay.Publish 0 Relay.done "";
   Relay.Receive 0 0;
   Relay.Receive 0 0].


Definition sample_relay : Relay.Relay :=
  Relay.mkRelay
    (<["t1" := Relay.mkThread "user_1" "Rome" 0 0 Relay.ACTIVE]> ∅)
    (snd (Relay.append_checkpoint (fun b => b) 1 "t1" "state-1" 1 true
            Relay.empty_store))
    (Relay.mux_run 3 4 [Relay.Open "t1"] Relay.empty_mux).

(** A database that rejects nothing, and a user table with one row. *)
Definition accept_all (table : gmap string Users.User) (id_ email_ : string)
    (name_ : option string) : option string := None.

Definition accept_delete (table : gmap string Users.User) (id_ : string)
  : option string := None.

Definition ada : Users.User :=
  Users.mkUser "user_1" "ada@example.com" (Some "Ada") 5 5.

Definition one_user : gmap string Users.User := <["user_1" := ada]> ∅.

Definition grace_payload : Users.ClerkUser :=
  Users.mkClerkUser
    (Some [Users.mkEmail "e0" (Some "old@example.com");
           Users.mkEmail "e1" (Some "grace@example.com")])
    (Some "e1") (Some "Grace") (Some "Hopper").

(** A svix check that accepts the signature "good" and yields the
    payload as the event. *)
Definition check_signature (secret : string) (payload : Webhook.ClerkWebhookEvent)
    (svixId svixTimestamp svixSignature : string)
  : option Webhook.ClerkWebhookEvent :=
  if String.eqb svixSignature "good" then Some payload else None.

(** A Redis server that answers every command, with a fixed INFO text. *)
Definition info_lines : list string :=
  ["# Memory"; "used_memory_human:1.50M"; "# Clients"; "connected_clients:3"].

Definition answering (cmd : Redis.Command) : string + Redis.Reply :=
  match cmd with
  | Redis.DBSIZE => inr (Redis.RInteger 42)
  | Redis.INFO _ => inr (Redis.RBulk (Mapper.join RedisController.CRLF info_lines))
  | _ => inr (Redis.RBulk "OK")
  end.

Definition ready_service : Redis.RedisService :=
  Redis.mkService (Some (Redis.mkClient true [])) true.

Definition sample_parseInt (s : string) : Env.Number :=
  sample_ToNumber (Env.VString s).

End Samples.

(** * Properties *)

Open Scope list_scope.
Import Samples.

(** ** PrismaClientExceptionFilter *)

Section PrismaFilterFacts.
Import Nest PrismaFilter.

Lemma switch_no_label (code : string) (cs : list (string * Exception)) :
  ~ In code (map fst cs) -> switch code cs = default_case.
Proof.
  induction cs as [|[label branch] rest IH]; simpl; intros Hnot.
  - reflexivity.
  - destruct (String.eqb_spec code label) as [->|Hne].
    + exfalso. apply Hnot. now left.
    + apply IH. intros Hin. apply Hnot. now right.
Qed.

Lemma not_label_by_scan (code : string) :
  existsb (String.eqb code) labels = false -> ~ In code labels.
Proof.
  intros Hscan Hin.
  assert (existsb (String.eqb code) labels = true) as Htrue.
  { apply existsb_exists. exists code. split; [exact Hin | apply String.eqb_refl]. }
  congruence.
Qed.

(** C8: for a PrismaClientKnownRequestError the exception thrown by
    [catch] depends on the error code alone; P2002 gives a
    ConflictException, a code that is not a label of the switch gives an
    InternalServerErrorException, and every PrismaClientValidationError
    gives a BadRequestException. *)
Theorem catch_determined_by_code :
  (forall code m1 v1 m2 v2,
      catch (PrismaClientKnownRequestError code m1 v1)
      = catch (PrismaClientKnownRequestError code m2 v2))
  /\ (forall m v,
      exn_class (catch (PrismaClientKnownRequestError "P2002" m v))
      = ConflictException)
  /\ (forall code m v,
      ~ In code labels ->
      exn_class (catch (PrismaClientKnownRequestError code m v))
      = InternalServerErrorException)
  /\ (forall m,
      exn_class (catch (PrismaClientValidationError m)) = BadRequestException).
Proof.
  split; [reflexivity|]. split; [reflexivity|]. split; [|reflexivity].
  intros code m v Hnot. unfold catch.
  now rewrite (switch_no_label code cases Hnot).
Qed.

Lemma catch_determined_by_code_witness :
  exn_class (catch (PrismaClientKnownRequestError "P9999" "boom" "6.0.0"))
  = InternalServerErrorException.
Proof.
  apply (proj1 (proj2 (proj2 catch_determined_by_code))).
  apply not_label_by_scan. vm_compute. reflexivity.
Defined.

(** Two rows of the table, read off the source. *)
Example catch_P2025 :
  catch (PrismaClientKnownRequestError "P2025" "not found" "6.0.0")
  = throw NotFoundException
      "An operation failed because required records were not found.".
Proof. reflexivity. Qed.

Example catch_P5011_status :
  getStatus (exn_class (catch (PrismaClientKnownRequestError "P5011" "" ""))) = 429%Z.
Proof. reflexivity. Qed.

End PrismaFilterFacts.

(** ** RedisService *)

Section RedisFacts.
Import Nest Redis.

Variable server : Command -> Reply.

Lemma guard_iff_unavailable (s : RedisService) :
  isAvailable s = false <-> getClientOrThrow s = inl not_connected.
Proof.
  unfold isAvailable, getClientOrThrow, client_isReady.
  destruct s as [[[ready log]|] connected]; destruct connected; simpl;
    try destruct ready; simpl; split; intros H; try reflexivity; discriminate.
Qed.

Lemma guard_passes (s : RedisService) :
  isAvailable s = true -> exists c, client s = Some c /\ getClientOrThrow s = inr c.
Proof.
  unfold isAvailable, getClientOrThrow, client_isReady.
  destruct s as [[[ready log]|] connected]; destruct connected; simpl;
    try destruct ready; simpl; intros H; try discriminate.
  eexists. split; reflexivity.
Qed.

(** C10: when [isAvailable()] is false every data operation throws the
    BadRequestException of [getClientOrThrow] and sends nothing; when it
    is true the operation does not throw and sends exactly its one
    command. So the operations throw in exactly the states in which
    [isAvailable()] returns false. *)
Theorem data_operation_guarded (op : Operation) (s : RedisService) :
  exn_class not_connected = BadRequestException
  /\ (isAvailable s = false ->
      call server op s = (inl not_connected, s)
      /\ wire (snd (call server op s)) = wire s)
  /\ (isAvailable s = true ->
      fst (call server op s) = inr (returned op (server (command_of op)))
      /\ wire (snd (call server op s)) = (wire s ++ [command_of op])%list).
Proof.
  split; [reflexivity|]. split.
  - intros Hdown. apply guard_iff_unavailable in Hdown.
    unfold call. rewrite Hdown. split; reflexivity.
  - intros Hup. destruct (guard_passes s Hup) as (c & Hc & Hguard).
    unfold call. rewrite Hguard. simpl. split; [reflexivity|].
    unfold wire. simpl. now rewrite Hc.
Qed.

End RedisFacts.

Lemma data_operation_guarded_witness :
  Redis.call (fun _ => Redis.RNull) (Redis.get "k")
    (Redis.mkService (Some (Redis.mkClient false [])) true)
  = (inl Redis.not_connected, Redis.mkService (Some (Redis.mkClient false [])) true)
  /\ fst (Redis.call (fun _ => Redis.RUndefined) (Redis.hget "k" "f")
            (Redis.mkService (Some (Redis.mkClient true [])) true))
     = inr Redis.RNull.
Proof.
  split.
  - exact (proj1 (proj1 (proj2 (data_operation_guarded (fun _ => Redis.RNull)
             (Redis.get "k")
             (Redis.mkService (Some (Redis.mkClient false [])) true))) eq_refl)).
  - exact (proj1 (proj2 (proj2 (data_operation_guarded (fun _ => Redis.RUndefined)
             (Redis.hget "k" "f")
             (Redis.mkService (Some (Redis.mkClient true [])) true))) eq_refl)).
Defined.

(** ** ClerkStrategy.validate *)

Section ClerkFacts.
Import Nest Clerk.

Variable Decoded : Type.
Variable VerifyError : Type.
Variable jwt_verify : string -> VerifyError + Decoded.

Lemma split_nonempty (sep : ascii) (s : string) : Js.split sep s <> [].
Proof.
  destruct s as [|c rest]; simpl; [discriminate|].
  destruct (Ascii.eqb c sep); [discriminate|].
  destruct (Js.split sep rest); discriminate.
Qed.

(** The effects of [validate] never include a call to the user service,
    whatever the request. *)
Lemma validate_never_syncs (req : Request) :
  forallb (fun e => negb (is_user_sync e)) (snd (validate Decoded VerifyError jwt_verify req))
  = true.
Proof.
  unfold validate.
  destruct (negb (Js.truthy_string (token_of req))); [reflexivity|].
  destruct (jwt_verify _); reflexivity.
Qed.

(** C6: when the bearer token of the request verifies, [validate]
    resolves to an object whose only property is [decodedToken], and the
    only effect is the verification itself: no method of the injected
    UserService is called. *)
Theorem validate_returns_only_token (req : Request) (t : string) (d : Decoded) :
  token_of req = Some t ->
  t <> "" ->
  jwt_verify t = inr d ->
  validate Decoded VerifyError jwt_verify req
  = (inr [("decodedToken", FDecoded d)], [JwtVerify t])
  /\ Forall (fun e => is_user_sync e = false)
       (snd (validate Decoded VerifyError jwt_verify req)).
Proof.
  intros Htok Hne Hver.
  assert (validate Decoded VerifyError jwt_verify req
          = (inr [("decodedToken", FDecoded d)], [JwtVerify t])) as Hval.
  { unfold validate. rewrite Htok. simpl.
    destruct (String.eqb_spec t "") as [->|_]; [contradiction|].
    simpl. now rewrite Hver. }
  split; [exact Hval|].
  rewrite Hval. simpl. repeat constructor.
Qed.

End ClerkFacts.

Lemma validate_returns_only_token_witness :
  Clerk.validate nat unit (fun t => if String.eqb t "abc" then inr 7 else inl tt)
    (Clerk.mkRequest (Some "Bearer abc"))
  = (inr [("decodedToken", Clerk.FDecoded 7)], [Clerk.JwtVerify "abc"]).
Proof.
  apply (validate_returns_only_token nat unit
           (fun t => if String.eqb t "abc" then inr 7 else inl tt)
           (Clerk.mkRequest (Some "Bearer abc")) "abc" 7).
  - reflexivity.
  - discriminate.
  - reflexivity.
Defined.

Example validate_no_header :
  fst (Clerk.validate nat unit (fun _ => inr 0) (Clerk.mkRequest None))
  = inl (Nest.throw Nest.UnauthorizedException "No token provided").
Proof. reflexivity. Qed.

Example validate_bad_token :
  fst (Clerk.validate nat unit (fun _ => inl tt) (Clerk.mkRequest (Some "Bearer x")))
  = inl (Nest.throw Nest.UnauthorizedException "Invalid token").
Proof. reflexivity. Qed.

(** ** UserService.createUser *)

Section UserFacts.
Import Users.

Variable trim : string -> string.
Variable schema_rejects :
  gmap string User -> string -> string -> option string -> option string.

Lemma createUser_existing (now : Z) (clerkId : string) (payload : ClerkUser)
    (table : gmap string User) (u : User) :
  table !! clerkId = Some u ->
  createUser trim schema_rejects now clerkId payload table
  = (inr (mkIUser u None), table,
     [LoggerLog ("Creating user from webhook: " ++ clerkId)%string;
      FindUnique clerkId;
      LoggerLog ("User already exists: " ++ clerkId)%string]).
Proof.
  intros Hfound. unfold createUser, findUserById. now rewrite Hfound.
Qed.

(** C9: [createUser] is idempotent. If a user with the given clerkId
    exists, the call returns that record as [{ user }], leaves the table
    as it is and performs no create, update or delete; and a second call
    with the same clerkId and payload, whenever it runs, leaves the table
    as the first call left it. *)
Theorem createUser_idempotent (now1 now2 : Z) (clerkId : string)
    (payload : ClerkUser) (table : gmap string User) :
  (forall u, table !! clerkId = Some u ->
     let r := createUser trim schema_rejects now1 clerkId payload table in
     result_of r = inr (mkIUser u None)
     /\ table_after r = table
     /\ Forall (fun e => is_write e = false) (effects_of r))
  /\ (let once := table_after (createUser trim schema_rejects now1 clerkId payload table) in
      table_after (createUser trim schema_rejects now2 clerkId payload once) = once).
Proof.
  split.
  - intros u Hfound r. subst r.
    rewrite (createUser_existing now1 clerkId payload table u Hfound).
    unfold result_of, table_after, effects_of. simpl.
    repeat split; repeat constructor.
  - simpl. destruct (table !! clerkId) as [u|] eqn:Hlook.
    + rewrite (createUser_existing now1 clerkId payload table u Hlook).
      unfold table_after at 2 3. simpl.
      now rewrite (createUser_existing now2 clerkId payload table u Hlook).
    + unfold createUser at 2 3, findUserById, prisma_user_create.
      rewrite Hlook.
      destruct (schema_rejects table clerkId _ _) as [code|] eqn:Hrej.
      * unfold table_after at 2 3. simpl.
        unfold createUser, findUserById, prisma_user_create.
        now rewrite Hlook, Hrej.
      * unfold table_after at 2 3. simpl.
        erewrite createUser_existing; [reflexivity|].
        apply lookup_insert_eq.
Qed.

End UserFacts.

Lemma createUser_idempotent_witness :
  let payload :=
    Users.mkClerkUser (Some [Users.mkEmail "e1" (Some "ada@example.com")])
      (Some "e1") (Some "Ada") (Some "Lovelace") in
  let existing := Users.mkUser "user_1" "old@example.com" None 5 5 in
  Users.result_of
    (Users.createUser (fun s => s) (fun _ _ _ _ => None) 10 "user_1" payload
       (<["user_1" := existing]> ∅))
  = inr (Users.mkIUser existing None).
Proof.
  intros payload existing.
  apply (proj1 (createUser_idempotent (fun s => s) (fun _ _ _ _ => None) 10 11
                  "user_1" payload (<["user_1" := existing]> ∅)) existing).
  apply lookup_insert_eq.
Defined.

(** A first call on an empty table creates the row from the payload. *)
Example createUser_fresh :
  Users.table_after
    (Users.createUser (fun s => s) (fun _ _ _ _ => None) 10 "user_1"
       (Users.mkClerkUser (Some [Users.mkEmail "e1" (Some "ada@example.com")])
          (Some "e1") (Some "Ada") None)
       ∅)
  !! "user_1"
  = Some (Users.mkUser "user_1" "ada@example.com" (Some "Ada ") 10 10).
Proof. vm_compute. reflexivity. Qed.

(** ** validateEnv *)

Section EnvFacts.
Import Env.

Variable ToString : Value -> string.
Variable ToNumber : Value -> Number.
Variable isURL : string -> bool.

Lemma filter_nil_iff {A : Type} (f : A -> bool) (l : list A) :
  List.filter f l = [] <-> (forall x, In x l -> f x = false).
Proof.
  induction l as [|a l IH]; simpl.
  - split; [intros _ x []|reflexivity].
  - destruct (f a) eqn:Hfa; split.
    + discriminate.
    + intros Hall. specialize (Hall a (or_introl eq_refl)). congruence.
    + intros Hnil x [<-|Hin]; [exact Hfa|]. now apply IH.
    + intros Hall. apply IH. intros x Hin. apply Hall. now right.
Qed.

(** No constraint of the property fails exactly when each of them holds
    in the sense of [constraint_holds]. *)
Lemma failed_nil_iff (m : PropertyMetadata) (o : gmap string Value) :
  failed isURL m o = [] <->
  (forall c, In c (constraints m) -> constraint_holds isURL m c o).
Proof.
  unfold failed, constraint_holds.
  destruct (isOptional m) eqn:Hopt; simpl;
    [destruct (nullish (read o (property m))) eqn:Hnull|].
  - split; [intros _ c _; left; split; reflexivity | reflexivity].
  - rewrite filter_nil_iff. split.
    + intros Hall c Hin. right. specialize (Hall c Hin).
      now apply negb_false_iff in Hall.
    + intros Hall c Hin. destruct (Hall c Hin) as [[_ Habs]|Hc];
        [discriminate | now rewrite Hc].
  - rewrite filter_nil_iff. split.
    + intros Hall c Hin. right. specialize (Hall c Hin).
      now apply negb_false_iff in Hall.
    + intros Hall c Hin. destruct (Hall c Hin) as [[Habs _]|Hc];
        [discriminate | now rewrite Hc].
Qed.

Lemma validateSync_nil_iff (o : gmap string Value) :
  validateSync isURL o = [] <-> all_constraints_hold isURL o.
Proof.
  unfold validateSync, all_constraints_hold.
  rewrite filter_nil_iff. split.
  - intros Hall m c Hm Hc.
    apply (proj1 (failed_nil_iff m o)); [|exact Hc].
    assert (negb (Nat.eqb (length (failed isURL m o)) 0) = false) as Hlen.
    { apply (Hall (mkError (property m) (failed isURL m o))).
      apply in_map_iff. exists m. split; [reflexivity | exact Hm]. }
    destruct (failed isURL m o) as [|c0 l]; [reflexivity | discriminate].
  - intros Hall e Hin. apply in_map_iff in Hin. destruct Hin as (m & <- & Hm).
    simpl. rewrite (proj2 (failed_nil_iff m o)); [reflexivity|].
    intros c Hc. now apply Hall.
Qed.

(** C7: [validateEnv] returns the transformed configuration exactly when
    every class-validator constraint of [EnvironmentVariables] holds of
    it, and throws [Error('Invalid environment variables')] exactly when
    some constraint fails. *)
Theorem validateEnv_iff_constraints (config : gmap string Value) :
  let validatedConfig := plainToInstance ToString ToNumber config in
  let outcome := fst (validateEnv ToString ToNumber isURL config) in
  (outcome = inr validatedConfig <-> all_constraints_hold isURL validatedConfig)
  /\ (outcome = inl (mkJsError "Invalid environment variables")
      <-> ~ all_constraints_hold isURL validatedConfig).
Proof.
  intros validatedConfig outcome. subst outcome. unfold validateEnv.
  fold validatedConfig.
  destruct (validateSync isURL validatedConfig) as [|e errors] eqn:Herr; simpl.
  - assert (all_constraints_hold isURL validatedConfig) as Hall
      by now apply validateSync_nil_iff.
    split; split; intros H; try reflexivity; try exact Hall; try discriminate.
    contradiction.
  - assert (~ all_constraints_hold isURL validatedConfig) as Hnot.
    { intros Hall. apply validateSync_nil_iff in Hall. congruence. }
    split; split; intros H; try reflexivity; try exact Hnot; try discriminate.
    contradiction.
Qed.

End EnvFacts.

Example validateEnv_accepts_sample :
  fst (Env.validateEnv sample_ToString sample_ToNumber sample_isURL sample_env)
  = inr (Env.plainToInstance sample_ToString sample_ToNumber sample_env).
Proof. vm_compute. reflexivity. Qed.

Example validateEnv_missing_DATABASE_URL :
  Env.validateEnv sample_ToString sample_ToNumber sample_isURL
    (delete "DATABASE_URL" sample_env)
  = (inl (Env.mkJsError "Invalid environment variables"),
     [Env.mkError "DATABASE_URL" [Env.IsString; Env.IsNotEmpty]]).
Proof. vm_compute. reflexivity. Qed.

Example validateEnv_invalid_NODE_ENV :
  Env.validateEnv sample_ToString sample_ToNumber sample_isURL
    (<["NODE_ENV" := Env.VString "staging"]> sample_env)
  = (inl (Env.mkJsError "Invalid environment variables"),
     [Env.mkError "NODE_ENV" [Env.IsEnum Env.Environment]]).
Proof. vm_compute. reflexivity. Qed.

Lemma validateEnv_iff_constraints_witness :
  Env.all_constraints_hold sample_isURL
    (Env.plainToInstance sample_ToString sample_ToNumber sample_env).
Proof.
  apply (proj1 (proj1 (validateEnv_iff_constraints sample_ToString sample_ToNumber
                         sample_isURL sample_env))).
  vm_compute. reflexivity.
Defined.

(** ** Execution State Store *)

Section StoreFacts.
Import Relay.

Variable digest_of : string -> string.

Lemma max_sequence_app (l k : list ExecutionCheckpoint) :
  max_sequence (l ++ k) = Nat.max (max_sequence l) (max_sequence k).
Proof.
  unfold max_sequence. induction l as [|c l IH]; simpl; [reflexivity|].
  rewrite IH. lia.
Qed.

Lemma max_sequence_drop_le (n : nat) (l : list ExecutionCheckpoint) :
  max_sequence (drop n l) <= max_sequence l.
Proof.
  rewrite <- (take_drop n l) at 2. rewrite max_sequence_app. lia.
Qed.

Lemma last_le_max (l : list ExecutionCheckpoint) :
  from_option sequence_number 0 (last l) <= max_sequence l.
Proof.
  induction l as [|c l IH] using rev_ind; simpl; [lia|].
  rewrite last_snoc, max_sequence_app. simpl. unfold max_sequence at 2. simpl. lia.
Qed.

Lemma last_drop_lt (n : nat) (l : list ExecutionCheckpoint) :
  n < length l -> last (drop n l) = last l.
Proof.
  intros Hlt. rewrite !last_lookup, length_drop, lookup_drop.
  f_equal. lia.
Qed.

(** A suffix that keeps the newest checkpoint keeps the invariant and the
    maximum. *)
Lemma newest_is_max_drop (n : nat) (l : list ExecutionCheckpoint) :
  n < length l -> newest_is_max l ->
  newest_is_max (drop n l) /\ max_sequence (drop n l) = max_sequence l.
Proof.
  unfold newest_is_max. intros Hlt Hinv.
  pose proof (max_sequence_drop_le n l) as Hle.
  pose proof (last_le_max (drop n l)) as Hge.
  rewrite (last_drop_lt n l Hlt) in *. lia.
Qed.

Lemma within_budget_take (bytes : nat) (l : list ExecutionCheckpoint) :
  exists n, within_budget bytes l = take n l.
Proof.
  revert bytes. induction l as [|c l IH]; intros bytes; simpl.
  - exists 0. reflexivity.
  - destruct (Nat.leb (byte_size c) bytes).
    + destruct (IH (bytes - byte_size c)) as [n Hn]. exists (S n). simpl. now rewrite Hn.
    + exists 0. reflexivity.
Qed.

Lemma retained_is_drop (policy : Policy) (l : list ExecutionCheckpoint) :
  exists n, retained policy l = drop n l.
Proof.
  destruct policy as [K|bytes]; simpl.
  - eexists. reflexivity.
  - destruct (within_budget_take bytes (rev l)) as [n ->].
    exists (length l - n). rewrite firstn_rev, rev_involutive. reflexivity.
Qed.

(** Compaction keeps a suffix of the history that contains the current
    latest checkpoint. *)
Lemma compacted_is_drop (policy : Policy) (l : list ExecutionCheckpoint) :
  exists n, compacted policy l = drop n l /\ (l <> [] -> n < length l).
Proof.
  unfold compacted. destruct (retained_is_drop policy l) as [n Hn].
  destruct (retained policy l) as [|c kept] eqn:Hret.
  - exists (length l - 1). split; [reflexivity|].
    destruct l; [congruence | simpl; lia].
  - exists n. split; [exact Hn|]. intros _.
    destruct (decide (n < length l)) as [|Hge]; [assumption|].
    rewrite drop_ge in Hn by lia. discriminate.
Qed.

Lemma history_insert (T T' : string) (l : list ExecutionCheckpoint)
    (st st' : Store) :
  checkpoints st' = <[T' := l]> (checkpoints st) ->
  history T st' = if decide (T' = T) then l else history T st.
Proof.
  intros Hcp. unfold history. rewrite Hcp, lookup_insert.
  now destruct (decide (T' = T)).
Qed.

(** What one call does to the invariant and to the maximum of each thread:
    an append hands out the successor of the maximum, which becomes the
    new maximum; nothing else moves a maximum. *)
Lemma store_step_spec (c : StoreCall) (st : Store) :
  store_ok st ->
  store_ok (snd (store_step digest_of c st))
  /\ forall T,
      match fst (store_step digest_of c st) with
      | Appended T' n =>
          n = S (max_sequence (history T' st))
          /\ max_sequence (history T (snd (store_step digest_of c st)))
             = if decide (T' = T) then n else max_sequence (history T st)
      | _ => max_sequence (history T (snd (store_step digest_of c st)))
             = max_sequence (history T st)
      end.
Proof.
  intros Hok. destruct c as [w T0|w T0 b now up|T0 policy]; simpl.
  - unfold begin_append. destruct (in_flight st !! T0); simpl; split; auto.
  - unfold commit_append. destruct (in_flight st !! T0) as [holder|]; simpl;
      [|split; auto].
    destruct (Nat.eqb holder w); simpl; [|split; auto].
    destruct up; simpl; [|split; auto].
    split.
    + intros T. rewrite (history_insert T T0 _ st) by reflexivity.
      destruct (decide (T0 = T)) as [->|Hne]; [|apply Hok].
      unfold newest_is_max. rewrite last_snoc, max_sequence_app. simpl.
      unfold max_sequence at 2. simpl. lia.
    + intros T. split; [reflexivity|].
      rewrite (history_insert T T0 _ st) by reflexivity.
      destruct (decide (T0 = T)) as [->|Hne]; [|reflexivity].
      rewrite max_sequence_app. unfold max_sequence at 2. simpl. lia.
  - unfold compact. destruct (in_flight st !! T0); simpl; [split; auto|].
    destruct (checkpoints st !! T0) as [l|] eqn:Hl; simpl; [|split; auto].
    destruct (compacted_is_drop policy l) as (n & Hn & Hlt).
    assert (history T0 st = l) as Hhist by (unfold history; now rewrite Hl).
    assert (newest_is_max (compacted policy l)
            /\ max_sequence (compacted policy l) = max_sequence l) as [Hinv Hmax].
    { rewrite Hn. destruct l as [|c0 l0].
      - rewrite drop_nil. split; reflexivity.
      - apply newest_is_max_drop; [apply Hlt; discriminate|].
        rewrite <- Hhist. apply Hok. }
    split.
    + intros T. rewrite (history_insert T T0 _ st) by reflexivity.
      destruct (decide (T0 = T)) as [->|Hne]; [exact Hinv | apply Hok].
    + intros T. rewrite (history_insert T T0 _ st) by reflexivity.
      destruct (decide (T0 = T)) as [->|Hne]; [|reflexivity].
      now rewrite Hmax, Hhist.
Qed.

Lemma appended_numbers (cs : list StoreCall) (T : string) :
  forall st, store_ok st ->
  appended T (fst (store_run digest_of cs st))
  = seq (S (max_sequence (history T st)))
        (length (appended T (fst (store_run digest_of cs st)))).
Proof.
  induction cs as [|c cs IH]; intros st Hok; simpl; [reflexivity|].
  destruct (store_step_spec c st Hok) as [Hok1 Hmax]. specialize (Hmax T).
  destruct (store_step digest_of c st) as [r st1] eqn:Hstep. simpl in *.
  specialize (IH st1 Hok1).
  destruct (store_run digest_of cs st1) as [rs st2] eqn:Hrun. simpl in *.
  destruct r as [T'|T' n|T'|T' e]; simpl; try (rewrite <- Hmax; exact IH).
  destruct Hmax as [Hn Hmax].
  destruct (String.eqb_spec T' T) as [->|Hne].
  - destruct (decide (T = T)) as [_|]; [|congruence].
    simpl. rewrite <- Hn. f_equal. rewrite <- Hmax. exact IH.
  - destruct (decide (T' = T)) as [|_]; [congruence|].
    rewrite <- Hmax. exact IH.
Qed.

Lemma store_ok_empty : store_ok empty_store.
Proof. intros T. reflexivity. Qed.

Lemma race_finished (T : string) (a b : Attempt) (schedule : list bool)
    (ra rb : RelayError + nat) (st : Store) :
  race digest_of T a b schedule (Finished ra) (Finished rb) st
  = (Finished ra, Finished rb, st).
Proof.
  induction schedule as [|[|] rest IH]; simpl; auto.
Qed.

(** Exchanging the two attempts and flipping the schedule is the same run. *)
Lemma race_swap (T : string) (a b : Attempt) (schedule : list bool) :
  forall pa pb st,
  race digest_of T a b schedule pa pb st
  = let '(pb', pa', st') := race digest_of T b a (map negb schedule) pb pa st in
    (pa', pb', st').
Proof.
  induction schedule as [|[|] rest IH]; intros pa pb st; simpl.
  - reflexivity.
  - destruct (attempt_step digest_of T a pa st) as [pa1 st1]. apply IH.
  - destruct (attempt_step digest_of T b pb st) as [pb1 st1]. apply IH.
Qed.

(** While the first attempt holds the lock and the second has been turned
    away, the only thing left to happen is the first one's commit. *)
Lemma race_holding (T : string) (a b : Attempt) (e : RelayError)
    (schedule : list bool) (st : Store) :
  in_flight st !! T = Some (writer a) ->
  backend_up a = true ->
  exists pa st',
    race digest_of T a b schedule Holding (Finished (inl e)) st
    = (pa, Finished (inl e), st')
    /\ (pa = Holding \/ pa = Finished (inr (S (max_sequence (history T st))))).
Proof.
  intros Hheld Hup. revert st Hheld.
  induction schedule as [|[|] rest IH]; intros st Hheld; simpl.
  - eauto.
  - unfold commit_append. rewrite Hheld, Nat.eqb_refl, Hup.
    rewrite race_finished. eauto.
  - apply IH. exact Hheld.
Qed.

Lemma race_first_wins (T : string) (a b : Attempt) (rest : list bool)
    (st st' : Store) (ra rb : RelayError + nat) :
  backend_up a = true ->
  in_flight st !! T = None ->
  race digest_of T a b (true :: false :: rest) Idle Idle st
  = (Finished ra, Finished rb, st') ->
  ra = inr (S (max_sequence (history T st))) /\ rb = inl ConflictError.
Proof.
  intros Hup Hfree. simpl. unfold begin_append at 1. rewrite Hfree.
  unfold begin_append. simpl. rewrite lookup_insert_eq.
  intros Hrun.
  destruct (race_holding T a b ConflictError rest
              (mkStore (checkpoints st) (<[T := writer a]> (in_flight st))))
    as (pa & st2 & Heq & Hpa); [apply lookup_insert_eq | exact Hup |].
  rewrite Heq in Hrun. inversion Hrun; subst.
  destruct Hpa as [Hpa|Hpa]; [discriminate|].
  inversion Hpa. split; reflexivity.
Qed.

(** C2: whatever calls the store serves and in whatever order, the
    sequence numbers it hands out for a thread are consecutive, starting
    right after the thread's current maximum: strictly increasing, with no
    gap and no duplicate. And when two append attempts for one thread
    overlap (both have asked for the thread's lock before either commits),
    the one that came first succeeds and the other fails with
    ConflictError. *)
Theorem checkpoint_sequences_consecutive (T : string) :
  (forall cs st,
      store_ok st ->
      appended T (fst (store_run digest_of cs st))
      = seq (S (max_sequence (history T st)))
            (length (appended T (fst (store_run digest_of cs st)))))
  /\ (forall a b first rest st st' ra rb,
      backend_up a = true ->
      backend_up b = true ->
      in_flight st !! T = None ->
      race digest_of T a b (first :: negb first :: rest) Idle Idle st
      = (Finished ra, Finished rb, st') ->
      (ra = inr (S (max_sequence (history T st))) /\ rb = inl ConflictError)
      \/ (ra = inl ConflictError /\ rb = inr (S (max_sequence (history T st))))).
Proof.
  split.
  - intros cs st Hok. now apply appended_numbers.
  - intros a b first rest st st' ra rb Ha Hb Hfree Hrun.
    destruct first.
    + left. apply (race_first_wins T a b rest st st' ra rb Ha Hfree Hrun).
    + right. rewrite race_swap in Hrun.
      change (map negb (false :: negb false :: rest))
        with (true :: false :: map negb rest) in Hrun.
      destruct (race digest_of T b a (true :: false :: map negb rest)
                  Idle Idle st) as [[pb pa] st2] eqn:Hswap.
      inversion Hrun; subst.
      apply and_comm.
      apply (race_first_wins T b a (map negb rest) st st' rb ra Hb Hfree Hswap).
Qed.

End StoreFacts.

Lemma checkpoint_sequences_consecutive_witness :
  Relay.appended "t1"
    (fst (Relay.store_run (fun b => b)
            [Relay.Begin 1 "t1"; Relay.Begin 2 "t1";
             Relay.Commit 1 "t1" "a" 0 true; Relay.Commit 2 "t1" "b" 1 true;
             Relay.Begin 2 "t1"; Relay.Compact "t1" (Relay.KeepLast 0);
             Relay.Commit 2 "t1" "b" 2 true]
            Relay.empty_store))
  = [1; 2]
  /\ Relay.race (fun b => b) "t1"
       (Relay.mkAttempt 1 "a" 0 true) (Relay.mkAttempt 2 "b" 0 true)
       [false; true; true; false] Relay.Idle Relay.Idle Relay.empty_store
     = (Relay.Finished (inl Relay.ConflictError), Relay.Finished (inr 1),
        snd (Relay.race (fun b => b) "t1"
               (Relay.mkAttempt 1 "a" 0 true) (Relay.mkAttempt 2 "b" 0 true)
               [false; true; true; false] Relay.Idle Relay.Idle Relay.empty_store)).
Proof.
  split.
  - rewrite (proj1 (checkpoint_sequences_consecutive (fun b => b) "t1") _
               Relay.empty_store store_ok_empty).
    vm_compute. reflexivity.
  - destruct (proj2 (checkpoint_sequences_consecutive (fun b => b) "t1")
               (Relay.mkAttempt 1 "a" 0 true) (Relay.mkAttempt 2 "b" 0 true)
               false [true; false] Relay.empty_store
               (snd (Relay.race (fun b => b) "t1"
                  (Relay.mkAttempt 1 "a" 0 true) (Relay.mkAttempt 2 "b" 0 true)
                  [false; true; true; false] Relay.Idle Relay.Idle Relay.empty_store))
               (inl Relay.ConflictError) (inr 1)
               eq_refl eq_refl eq_refl ltac:(vm_compute; reflexivity))
      as [[H1 H2]|[H1 H2]].
    + discriminate H1.
    + vm_compute. reflexivity.
Defined.

(** ** Event Multiplexer *)

Section MuxFacts.
Import Relay.

Variable window : nat.
Variable capacity : nat.

Lemma indexed_snoc (l : list Event) (ty : EventType) (data : string) :
  indexed l -> indexed (l ++ [mkEvent ty (length l) data]).
Proof.
  intros Hl i e Hi. apply lookup_snoc_Some in Hi.
  destruct Hi as [[Hlt Hi]|[-> <-]]; [now apply Hl | reflexivity].
Qed.

Lemma indexed_init (l : list Event) (e : Event) :
  indexed (l ++ [e]) -> indexed l /\ ev_sequence e = length l.
Proof.
  intros H. split.
  - intros i x Hi. apply H. rewrite lookup_app_l; [exact Hi|].
    now apply lookup_lt_Some in Hi.
  - apply H. now rewrite list_lookup_middle.
Qed.

(** Catching up from a replay buffer that reaches back to [ws <= from]
    yields exactly the published events from [from] on. *)
Lemma catch_up_is_drop (l : list Event) (ws from : nat) :
  indexed l -> ws <= from ->
  List.filter (fun e => Nat.leb from (ev_sequence e)) (drop ws l) = drop from l.
Proof.
  induction l as [|e l IH] using rev_ind; intros Hidx Hle.
  - now rewrite !drop_nil.
  - destruct (indexed_init l e Hidx) as [Hl He].
    rewrite !drop_app, List.filter_app, (IH Hl Hle). f_equal.
    destruct (decide (from <= length l)) as [Hin|Hout].
    + replace (ws - length l) with 0 by lia.
      replace (from - length l) with 0 by lia.
      simpl. rewrite He. now rewrite (proj2 (Nat.leb_le _ _) Hin).
    + rewrite (drop_ge [e] (from - length l)) by (simpl; lia).
      destruct (drop (ws - length l) [e]) as [|x k] eqn:Hd; [reflexivity|].
      assert (x = e /\ k = []) as [-> ->].
      { destruct (ws - length l); simpl in Hd; [now inversion Hd|].
        now rewrite drop_nil in Hd. }
      simpl. rewrite He.
      now rewrite (proj2 (Nat.leb_gt _ _)) by lia.
Qed.

Lemma suffix_is_drop {A : Type} (r p : list A) :
  r `suffix_of` p -> r = drop (length p - length r) p.
Proof.
  intros [k ->]. rewrite length_app.
  replace (length k + length r - length r) with (length k) by lia.
  now rewrite drop_app_length.
Qed.

Lemma bounded_suffix (r p : list Event) (e : Event) :
  r `suffix_of` p -> bounded window (r ++ [e]) `suffix_of` (p ++ [e]).
Proof.
  intros Hsuf. transitivity (r ++ [e])%list.
  - apply suffix_drop.
  - now apply suffix_app.
Qed.

Lemma subscriber_ok_grow (pub : list Event) (e : Event) (sub : Subscriber) :
  connection sub <> Attached ->
  subscriber_ok pub sub -> subscriber_ok (pub ++ [e]) sub.
Proof.
  intros Hconn [Hpre _]. split; [|intros; contradiction].
  rewrite drop_app. now apply prefix_app_r.
Qed.

Lemma deliver_ok (pub : list Event) (e : Event) (sub : Subscriber) :
  ev_sequence e = length pub ->
  subscriber_ok pub sub -> subscriber_ok (pub ++ [e]) (deliver capacity e sub).
Proof.
  intros He Hok. unfold deliver.
  destruct (connection sub) eqn:Hconn;
    [|apply subscriber_ok_grow; [congruence | exact Hok]
     |apply subscriber_ok_grow; [congruence | exact Hok]].
  destruct Hok as [Hpre Hall]. specialize (Hall Hconn).
  destruct (Nat.leb (from_sequence sub) (ev_sequence e)) eqn:Hfrom.
  - apply Nat.leb_le in Hfrom.
    destruct (Nat.ltb (length (pending sub)) capacity).
    + assert ((observed sub ++ pending sub ++ [e])%list
              = drop (from_sequence sub) (pub ++ [e])) as Heq.
      { rewrite drop_app_le by lia. rewrite <- Hall. now rewrite app_assoc. }
      split; simpl; [now rewrite Heq | intros _; exact Heq].
    + split; simpl; [|discriminate].
      rewrite drop_app. now apply prefix_app_r.
  - apply Nat.leb_gt in Hfrom. split; [|intros _].
    + rewrite drop_app. now apply prefix_app_r.
    + rewrite Hall, !drop_ge; [reflexivity | rewrite length_app; simpl; lia | lia].
Qed.

Lemma take_next_ok (pub : list Event) (sub : Subscriber) :
  subscriber_ok pub sub -> subscriber_ok pub (take_next sub).
Proof.
  intros Hok. unfold take_next.
  destruct (connection sub) eqn:Hconn; try exact Hok.
  destruct (pending sub) as [|e rest] eqn:Hpend; [exact Hok|].
  destruct Hok as [Hpre Hall]. rewrite Hpend in *.
  unfold subscriber_ok. simpl. rewrite <- app_assoc. simpl. split; auto.
Qed.

Lemma leave_ok (pub : list Event) (sub : Subscriber) :
  subscriber_ok pub sub -> subscriber_ok pub (leave sub).
Proof.
  intros Hok. unfold leave.
  destruct (connection sub) eqn:Hconn; try exact Hok.
  destruct Hok as [Hpre _]. split; simpl; [exact Hpre | discriminate].
Qed.

Lemma no_live_iff (T : string) (l : list StreamSession) :
  existsb (is_live_for T) l = false <->
  (forall i s, l !! i = Some s -> producer_live s = true -> thread_id s <> T).
Proof.
  split.
  - intros Hnone i s Hi Hlive HT.
    assert (existsb (is_live_for T) l = true) as Hsome; [|congruence].
    apply existsb_exists. exists s. split.
    + apply list_elem_of_In. eapply list_elem_of_lookup_2. exact Hi.
    + unfold is_live_for. rewrite Hlive, HT. simpl. apply String.eqb_refl.
  - intros Hall. destruct (existsb (is_live_for T) l) eqn:Hex; [|reflexivity].
    apply existsb_exists in Hex. destruct Hex as (s & Hin & Hs).
    apply list_elem_of_In, list_elem_of_lookup_1 in Hin. destruct Hin as [i Hi].
    unfold is_live_for in Hs. apply andb_prop in Hs. destruct Hs as [Hlive HT].
    apply String.eqb_eq in HT. exfalso. exact (Hall i s Hi Hlive HT).
Qed.

(** Replacing a session by one of the same thread that is live only if
    the old one was keeps the producers unique. *)
Lemma one_producer_insert (m : Multiplexer) (tok : nat) (s s' : StreamSession) :
  one_producer m ->
  sessions m !! tok = Some s ->
  thread_id s' = thread_id s ->
  (producer_live s' = true -> producer_live s = true) ->
  one_producer (mkMux (<[tok := s']> (sessions m))).
Proof.
  intros Hone Htok Hthread Hlive i j si sj Hi Hj Hli Hlj Hsame.
  simpl in Hi, Hj.
  apply list_lookup_insert_Some in Hi, Hj.
  destruct Hi as [(<- & <- & _)|[Hni Hi]], Hj as [(<- & <- & _)|[Hnj Hj]].
  - reflexivity.
  - apply (Hone tok j s sj); auto. now rewrite <- Hthread.
  - apply (Hone i tok si s); auto. now rewrite Hthread in Hsame.
  - apply (Hone i j si sj); auto.
Qed.

Lemma sessions_insert_ok (m : Multiplexer) (tok : nat) (s s' : StreamSession) :
  mux_ok m ->
  sessions m !! tok = Some s ->
  session_ok s' ->
  thread_id s' = thread_id s ->
  (producer_live s' = true -> producer_live s = true) ->
  mux_ok (mkMux (<[tok := s']> (sessions m))).
Proof.
  intros [Hall Hone] Htok Hs' Hthread Hlive. split.
  - simpl. now apply Forall_insert.
  - now apply (one_producer_insert m tok s s').
Qed.

Lemma session_ok_lookup (m : Multiplexer) (tok : nat) (s : StreamSession) :
  mux_ok m -> sessions m !! tok = Some s -> session_ok s.
Proof.
  intros [Hall _] Htok. exact (proj1 (Forall_lookup _ _) Hall tok s Htok).
Qed.

Lemma open_ok (T : string) (m : Multiplexer) :
  mux_ok m -> mux_ok (snd (open T m)).
Proof.
  intros Hok. unfold open.
  destruct (existsb (is_live_for T) (sessions m)) eqn:Hex; [exact Hok|].
  destruct Hok as [Hall Hone]. simpl. split; simpl.
  - apply Forall_app. split; [exact Hall|].
    constructor; [|constructor].
    split; [reflexivity|]. split; [intros i e Hi; discriminate|].
    split; [reflexivity | constructor].
  - pose proof (proj1 (no_live_iff T (sessions m)) Hex) as Hnone.
    intros i j si sj Hi Hj Hli Hlj Hsame.
    apply lookup_snoc_Some in Hi, Hj.
    destruct Hi as [[_ Hi]|[-> <-]], Hj as [[_ Hj]|[-> <-]].
    + apply (Hone i j si sj); auto.
    + exfalso. exact (Hnone i si Hi Hli Hsame).
    + exfalso. apply (Hnone j sj Hj Hlj). now rewrite <- Hsame.
    + reflexivity.
Qed.

Lemma close_ok (tok : nat) (reason : CloseReason) (m : Multiplexer) :
  mux_ok m -> mux_ok (snd (close tok reason m)).
Proof.
  intros Hok. unfold close.
  destruct (sessions m !! tok) as [s|] eqn:Htok; [|exact Hok].
  destruct (producer_live s) eqn:Hlive; [|exact Hok].
  simpl. apply (sessions_insert_ok m tok s _ Hok Htok);
    [|reflexivity | discriminate].
  exact (session_ok_lookup m tok s Hok Htok).
Qed.

Lemma publish_ok (tok : nat) (ty : EventType) (data : string) (m : Multiplexer) :
  mux_ok m -> mux_ok (snd (publish window capacity tok ty data m)).
Proof.
  intros Hok. unfold publish.
  destruct (sessions m !! tok) as [s|] eqn:Htok; [|exact Hok].
  destruct (producer_live s) eqn:Hlive; [|exact Hok].
  simpl. apply (sessions_insert_ok m tok s _ Hok Htok);
    [|reflexivity | intros _; exact Hlive].
  destruct (session_ok_lookup m tok s Hok Htok) as (Hnext & Hidx & Hsuf & Hsubs).
  split; [|split; [|split]]; simpl.
  - rewrite length_app. simpl. lia.
  - rewrite Hnext. now apply indexed_snoc.
  - now apply bounded_suffix.
  - apply Forall_map. eapply Forall_impl; [exact Hsubs|].
    intros sub Hsub. apply deliver_ok; [exact Hnext | exact Hsub].
Qed.

Lemma subscribe_ok (tok from : nat) (m : Multiplexer) :
  mux_ok m -> mux_ok (snd (subscribe tok from m)).
Proof.
  intros Hok. unfold subscribe.
  destruct (sessions m !! tok) as [s|] eqn:Htok; [|exact Hok].
  destruct (Nat.ltb from (window_start s)) eqn:Hgone; [exact Hok|].
  simpl. apply (sessions_insert_ok m tok s _ Hok Htok);
    [|reflexivity | intros Hl; exact Hl].
  destruct (session_ok_lookup m tok s Hok Htok) as (Hnext & Hidx & Hsuf & Hsubs).
  split; [exact Hnext|]. split; [exact Hidx|]. split; [exact Hsuf|]. simpl.
  apply Forall_app. split; [exact Hsubs|]. constructor; [|constructor].
  apply Nat.ltb_ge in Hgone. unfold window_start in Hgone.
  assert (List.filter (fun e => Nat.leb from (ev_sequence e)) (replay s)
          = drop from (published s)) as Hcatch.
  { rewrite (suffix_is_drop _ _ Hsuf) at 1.
    apply catch_up_is_drop; [exact Hidx | lia]. }
  split; simpl; [now rewrite Hcatch | intros _; exact Hcatch].
Qed.

Lemma on_subscriber_ok (f : Subscriber -> Subscriber) (tok i : nat) (m : Multiplexer) :
  (forall pub sub, subscriber_ok pub sub -> subscriber_ok pub (f sub)) ->
  mux_ok m -> mux_ok (on_subscriber f tok i m).
Proof.
  intros Hf Hok. unfold on_subscriber.
  destruct (sessions m !! tok) as [s|] eqn:Htok; [|exact Hok].
  apply (sessions_insert_ok m tok s _ Hok Htok);
    [|reflexivity | intros Hl; exact Hl].
  destruct (session_ok_lookup m tok s Hok Htok) as (Hnext & Hidx & Hsuf & Hsubs).
  split; [exact Hnext|]. split; [exact Hidx|]. split; [exact Hsuf|]. simpl.
  apply Forall_alter; [exact Hsubs|]. intros sub _. apply Hf.
Qed.

Lemma mux_step_ok (c : MuxCall) (m : Multiplexer) :
  mux_ok m -> mux_ok (mux_step window capacity c m).
Proof.
  intros Hok. destruct c; simpl.
  - now apply open_ok.
  - now apply close_ok.
  - now apply publish_ok.
  - now apply subscribe_ok.
  - apply on_subscriber_ok; [apply take_next_ok | exact Hok].
  - apply on_subscriber_ok; [apply leave_ok | exact Hok].
Qed.

Lemma mux_run_ok (cs : list MuxCall) :
  forall m, mux_ok m -> mux_ok (mux_run window capacity cs m).
Proof.
  induction cs as [|c cs IH]; intros m Hok; simpl; [exact Hok|].
  apply IH. now apply mux_step_ok.
Qed.

Lemma mux_reachable_ok (m : Multiplexer) :
  mux_reachable window capacity m -> mux_ok m.
Proof.
  intros [cs ->]. apply mux_run_ok. split.
  - constructor.
  - intros i j si sj Hi. discriminate.
Qed.

(** After the live session of a thread is closed no live producer is
    left for the thread. *)
Lemma closed_frees_thread (m : Multiplexer) (tok : nat) (s : StreamSession)
    (reason : CloseReason) :
  mux_ok m ->
  sessions m !! tok = Some s ->
  producer_live s = true ->
  exists m',
    close tok reason m = (inr tt, m')
    /\ length (sessions m') = length (sessions m)
    /\ existsb (is_live_for (thread_id s)) (sessions m') = false.
Proof.
  intros [Hall Hone] Htok Hlive. unfold close. rewrite Htok, Hlive.
  eexists. split; [reflexivity|]. simpl. split; [apply length_insert|].
  apply no_live_iff. intros i si Hi Hli Hsame.
  apply list_lookup_insert_Some in Hi.
  destruct Hi as [(_ & <- & _)|[Hne Hi]]; [discriminate|].
  apply Hne. symmetry. apply (Hone i tok si s); auto.
Qed.

(** The observed events carry consecutive sequence numbers. *)
Lemma prefix_of_drop_numbers (pub : list Event) :
  indexed pub ->
  forall l from, l `prefix_of` drop from pub ->
  map ev_sequence l = seq from (length l).
Proof.
  intros Hidx l. induction l as [|e l IH]; intros from Hpre; [reflexivity|].
  destruct Hpre as [k Hk]. simpl.
  assert (pub !! from = Some e) as He.
  { rewrite <- (Nat.add_0_r from), <- lookup_drop, Hk. reflexivity. }
  rewrite (Hidx from e He). f_equal. apply IH. exists k.
  replace (S from) with (from + 1) by lia.
  rewrite <- drop_drop, Hk. reflexivity.
Qed.

(** C1: in every state of the multiplexer, while a session is the live
    producer of its thread, [open] for that thread fails with
    ConflictError and changes nothing; once that session is closed,
    [open] for the thread succeeds and returns a fresh session. *)
Theorem open_conflicts_until_closed (m : Multiplexer) (tok : nat)
    (s : StreamSession) :
  mux_reachable window capacity m ->
  sessions m !! tok = Some s ->
  producer_live s = true ->
  open (thread_id s) m = (inl ConflictError, m)
  /\ forall reason, exists m',
       close tok reason m = (inr tt, m')
       /\ open (thread_id s) m'
          = (inr (length (sessions m)),
             mkMux (sessions m' ++ [mkSession (thread_id s) true None 0 [] [] []])).
Proof.
  intros Hreach Htok Hlive. pose proof (mux_reachable_ok m Hreach) as Hok. split.
  - unfold open.
    destruct (existsb (is_live_for (thread_id s)) (sessions m)) eqn:Hex;
      [reflexivity|].
    exfalso. exact (proj1 (no_live_iff _ _) Hex tok s Htok Hlive eq_refl).
  - intros reason.
    destruct (closed_frees_thread m tok s reason Hok Htok Hlive)
      as (m' & Hclose & Hlen & Hfree).
    exists m'. split; [exact Hclose|].
    unfold open. now rewrite Hfree, Hlen.
Qed.

(** C4: in every state of the multiplexer, what a subscriber has observed
    is an initial part of the published events taken from its
    [from_sequence] on, in publication order and with consecutive
    sequence numbers starting at [from_sequence]; and [subscribe] with a
    [from_sequence] that precedes the replay window fails with
    ResourceGoneError, while any later one is accepted and starts the
    subscriber with every published event from [from_sequence] on. *)
Theorem subscriber_stream_contiguous (m : Multiplexer) (tok : nat)
    (s : StreamSession) :
  mux_reachable window capacity m ->
  sessions m !! tok = Some s ->
  (forall i sub, subscribers s !! i = Some sub ->
     observed sub `prefix_of` drop (from_sequence sub) (published s)
     /\ map ev_sequence (observed sub)
        = seq (from_sequence sub) (length (observed sub)))
  /\ (forall from, from < window_start s ->
        subscribe tok from m = (inl ResourceGoneError, m))
  /\ (forall from, window_start s <= from ->
        exists m' s',
          subscribe tok from m = (inr (length (subscribers s)), m')
          /\ sessions m' !! tok = Some s'
          /\ published s' = published s
          /\ subscribers s' !! length (subscribers s)
             = Some (mkSubscriber from (drop from (published s)) [] Attached)).
Proof.
  intros Hreach Htok. pose proof (mux_reachable_ok m Hreach) as Hok.
  destruct (session_ok_lookup m tok s Hok Htok) as (Hnext & Hidx & Hsuf & Hsubs).
  split; [|split].
  - intros i sub Hi.
    destruct (proj1 (Forall_lookup _ _) Hsubs i sub Hi) as [Hpre _].
    assert (observed sub `prefix_of` drop (from_sequence sub) (published s)) as Hobs.
    { eapply prefix_app_l. exact Hpre. }
    split; [exact Hobs|]. now apply (prefix_of_drop_numbers (published s)).
  - intros from Hlt. unfold subscribe. rewrite Htok.
    now rewrite (proj2 (Nat.ltb_lt _ _) Hlt).
  - intros from Hge. unfold subscribe. rewrite Htok.
    rewrite (proj2 (Nat.ltb_ge _ _) Hge).
    eexists. eexists. split; [reflexivity|]. simpl. split; [|split].
    + apply list_lookup_insert_eq. now apply lookup_lt_Some in Htok.
    + reflexivity.
    + simpl. rewrite list_lookup_middle by reflexivity. f_equal. f_equal.
      unfold window_start in Hge.
      rewrite (suffix_is_drop _ _ Hsuf) at 1.
      apply catch_up_is_drop; [exact Hidx | lia].
Qed.

End MuxFacts.

Lemma open_conflicts_until_closed_witness :
  let m := Relay.mux_run 2 2 [Relay.Open "t1"; Relay.Publish 0 Relay.status "hi"]
             Relay.empty_mux in
  Relay.open "t1" m = (inl Relay.ConflictError, m).
Proof.
  intros m.
  apply (open_conflicts_until_closed 2 2 m 0
           (Relay.mkSession "t1" true None 1
              [Relay.mkEvent Relay.status 0 "hi"]
              [Relay.mkEvent Relay.status 0 "hi"] [])).
  - exists [Relay.Open "t1"; Relay.Publish 0 Relay.status "hi"]. reflexivity.
  - vm_compute. reflexivity.
  - reflexivity.
Defined.

Lemma subscriber_stream_contiguous_witness :
  let m := Relay.mux_run 3 4 sample_stream Relay.empty_mux in
  Relay.subscribe 0 0 m = (inl Relay.ResourceGoneError, m).
Proof.
  intros m.
  refine (proj1 (proj2 (subscriber_stream_contiguous 3 4 m 0
           (default (Relay.mkSession "" false None 0 [] [] [])
                    (Relay.sessions m !! 0)) _ _)) 0 _).
  - exists sample_stream. reflexivity.
  - vm_compute. reflexivity.
  - vm_compute. lia.
Defined.

(** The subscriber of the sample run joined at sequence 1 and has
    observed the events 1 and 2; event 3 is still in its buffer. *)
Example sample_stream_observed :
  (fun s => (map Relay.ev_sequence (Relay.observed s),
             map Relay.ev_sequence (Relay.pending s)))
  <$> (Relay.sessions (Relay.mux_run 3 4 sample_stream Relay.empty_mux) !! 0
       ≫= fun s => Relay.subscribers s !! 0)
  = Some ([1; 2], [3]).
Proof. vm_compute. reflexivity. Qed.

(** ** Interrupt/Approval Coordinator *)

Section CoordinatorFacts.
Import Relay.

Lemma resolution_of_not_pending (d : Decision) : resolution_of d <> PENDING.
Proof. destruct d; discriminate. Qed.

(** A resolved request is left as it is by every call, and a [resolve]
    for it is refused. *)
Lemma resolved_step (k : string * nat) (r : ApprovalRequest)
    (call : CoordinatorCall) (c : Coordinator) :
  requests c !! k = Some r ->
  resolution r <> PENDING ->
  requests (snd (coordinator_step call c)) !! k = Some r
  /\ (forall T n d, call = Resolve T n d -> (T, n) = k ->
        fst (coordinator_step call c) = Some (inl ConflictError)).
Proof.
  intros Hk Hres. destruct call as [T n act now dl|T n d|T n|T n]; simpl.
  - split; [|discriminate]. unfold request_approval.
    destruct (requests c !! (T, n)) as [r0|] eqn:Hreq; simpl; [exact Hk|].
    rewrite lookup_insert_ne; [exact Hk | congruence].
  - unfold resolve. destruct (requests c !! (T, n)) as [r0|] eqn:Hreq; simpl.
    + destruct (resolution r0) eqn:Hr0; simpl.
      * split.
        -- rewrite lookup_insert_ne; [exact Hk|]. intros <-.
           rewrite Hk in Hreq. inversion Hreq; subst. contradiction.
        -- intros T' n' d' Heq <-. inversion Heq; subst.
           rewrite Hk in Hreq. inversion Hreq; subst. contradiction.
      * split; [exact Hk|]. reflexivity.
      * split; [exact Hk|]. reflexivity.
      * split; [exact Hk|]. reflexivity.
    + split; [exact Hk|]. intros T' n' d' Heq <-. inversion Heq; subst.
      rewrite Hk in Hreq. discriminate.
  - split; [|discriminate]. unfold await_resolution.
    destruct (requests c !! (T, n)) as [r0|]; simpl; [|exact Hk].
    destruct (resolution r0); exact Hk.
  - split; [exact Hk | discriminate].
Qed.

Lemma resolved_run (k : string * nat) (r : ApprovalRequest)
    (calls : list CoordinatorCall) :
  forall c,
  requests c !! k = Some r ->
  resolution r <> PENDING ->
  requests (snd (coordinator_run k calls c)) !! k = Some r
  /\ Forall (fun out => out = inl ConflictError) (fst (coordinator_run k calls c)).
Proof.
  induction calls as [|call rest IH]; intros c Hk Hres; simpl.
  - split; [exact Hk | constructor].
  - destruct (resolved_step k r call c Hk Hres) as [Hkeep Hrefuse].
    destruct (coordinator_step call c) as [out c1] eqn:Hstep. simpl in *.
    destruct (IH c1 Hkeep Hres) as [Hk2 Hall].
    destruct (coordinator_run k rest c1) as [outs c2] eqn:Hrun. simpl in *.
    destruct call as [T n act now dl|T n d|T n|T n]; simpl; try (split; assumption).
    destruct out as [out|]; [|split; assumption].
    destruct (bool_decide ((T, n) = k)) eqn:Hdec; simpl; [|split; assumption].
    apply bool_decide_eq_true in Hdec.
    split; [exact Hk2|]. constructor; [|exact Hall].
    specialize (Hrefuse T n d eq_refl Hdec). congruence.
Qed.

Lemma refused_none_succeeded (outs : list (RelayError + Resolution)) :
  Forall (fun out => out = inl ConflictError) outs ->
  List.filter succeeded outs = [].
Proof.
  induction 1 as [|out outs Hout _ IH]; simpl; [reflexivity|].
  now rewrite Hout.
Qed.

(** A successful [resolve] leaves the request resolved. *)
Lemma resolve_success (T : string) (n : nat) (d : Decision) (c : Coordinator)
    (res : Resolution) :
  fst (resolve T n d c) = inr res ->
  exists r, requests (snd (resolve T n d c)) !! (T, n) = Some r
            /\ resolution r <> PENDING.
Proof.
  unfold resolve. destruct (requests c !! (T, n)) as [r0|]; simpl; [|discriminate].
  destruct (resolution r0); simpl; try discriminate.
  intros _. eexists. split; [apply lookup_insert_eq|].
  simpl. apply resolution_of_not_pending.
Qed.

Lemma at_most_one_success (k : string * nat) (calls : list CoordinatorCall) :
  forall c,
  length (List.filter succeeded (fst (coordinator_run k calls c))) <= 1.
Proof.
  induction calls as [|call rest IH]; intros c; simpl; [lia|].
  destruct (coordinator_step call c) as [out c1] eqn:Hstep.
  pose proof (IH c1) as IH1.
  destruct (coordinator_run k rest c1) as [outs c2] eqn:Hrun. simpl in *.
  destruct call as [T n act now dl|T n d|T n|T n]; simpl; try exact IH1.
  destruct out as [out|]; [|exact IH1].
  destruct (bool_decide ((T, n) = k)) eqn:Hdec; simpl; [|exact IH1].
  apply bool_decide_eq_true in Hdec. subst k.
  destruct out as [e|res]; simpl; [exact IH1|].
  simpl in Hstep. destruct (resolve T n d c) as [o c'] eqn:Hres.
  inversion Hstep; subst o c'.
  destruct (resolve_success T n d c res) as (r & Hr & Hnp);
    [now rewrite Hres|].
  rewrite Hres in Hr. simpl in Hr.
  destruct (resolved_run (T, n) r rest c1 Hr Hnp) as [_ Hall].
  rewrite Hrun in Hall. simpl in Hall.
  rewrite (refused_none_succeeded outs Hall). simpl. lia.
Qed.

(** C3: a request leaves PENDING at most once in any run of calls: the
    first decision to arrive (approval, rejection or elapsed deadline)
    resolves a PENDING request to the matching resolution; a resolved
    request is never changed again by any call, and every later
    [resolve] for its key fails with ConflictError. *)
Theorem approval_resolved_once (k : string * nat)
    (calls : list CoordinatorCall) (c : Coordinator) :
  length (List.filter succeeded (fst (coordinator_run k calls c))) <= 1
  /\ (forall r d,
        requests c !! k = Some r -> resolution r = PENDING ->
        fst (resolve (fst k) (snd k) d c) = inr (resolution_of d)
        /\ requests (snd (resolve (fst k) (snd k) d c)) !! k
           = Some (mkApproval (action r) (requested_at r) (deadline r)
                              (resolution_of d))
        /\ resolution_of d <> PENDING)
  /\ (forall r,
        requests c !! k = Some r -> resolution r <> PENDING ->
        requests (snd (coordinator_run k calls c)) !! k = Some r
        /\ Forall (fun out => out = inl ConflictError)
                  (fst (coordinator_run k calls c))
        /\ forall d, resolve (fst k) (snd k) d c = (inl ConflictError, c)).
Proof.
  split; [apply at_most_one_success|]. split.
  - intros r d Hk Hpend. destruct k as [T n]. simpl.
    unfold resolve. rewrite Hk, Hpend. simpl.
    split; [reflexivity|]. split; [apply lookup_insert_eq|].
    apply resolution_of_not_pending.
  - intros r Hk Hres.
    destruct (resolved_run k r calls c Hk Hres) as [Hkeep Hall].
    split; [exact Hkeep|]. split; [exact Hall|].
    intros d. destruct k as [T n]. simpl. unfold resolve. rewrite Hk.
    destruct (resolution r); [contradiction | reflexivity..].
Qed.

End CoordinatorFacts.

Lemma approval_resolved_once_witness :
  let c := snd (Relay.request_approval "t1" 4 "book flight XYZ" 100 160
                  Relay.empty_coordinator) in
  fst (Relay.resolve "t1" 4 Relay.deadline_elapsed c) = inr Relay.EXPIRED.
Proof.
  intros c.
  apply (proj1 (proj1 (proj2 (approval_resolved_once ("t1", 4) [] c))
                  (Relay.mkApproval "book flight XYZ" 100 160 Relay.PENDING)
                  Relay.deadline_elapsed
                  ltac:(vm_compute; reflexivity) eq_refl)).
Defined.

(** The approval arrives first: the deadline and a late rejection are
    refused, and the record stays APPROVED. *)
Example approval_first_writer_wins :
  let c := snd (Relay.request_approval "t1" 4 "book flight XYZ" 100 160
                  Relay.empty_coordinator) in
  let calls := [Relay.Await "t1" 4;
                Relay.Resolve "t1" 4 Relay.approve;
                Relay.Resolve "t1" 4 Relay.deadline_elapsed;
                Relay.Resolve "t1" 4 Relay.reject] in
  (fst (Relay.coordinator_run ("t1", 4) calls c),
   Relay.resolution
     <$> Relay.requests (snd (Relay.coordinator_run ("t1", 4) calls c)) !! ("t1", 4))
  = ([inr Relay.APPROVED; inl Relay.ConflictError; inl Relay.ConflictError],
     Some Relay.APPROVED).
Proof. vm_compute. reflexivity. Qed.

(** ** Session Orchestrator: storage failure at the final checkpoint *)

Section OrchestratorFacts.
Import Relay.

Variable digest_of : string -> string.
Variable window : nat.
Variable capacity : nat.

(** A failed append leaves the store exactly as it was. *)
Lemma append_storage_failure (w : nat) (T : string) (b : string) (now : Z)
    (st : Store) :
  in_flight st !! T = None ->
  append_checkpoint digest_of w T b now false st = (inl StorageFailure, st).
Proof.
  intros Hfree. unfold append_checkpoint, begin_append. rewrite Hfree.
  unfold commit_append. simpl. rewrite lookup_insert_eq, Nat.eqb_refl.
  unfold release. simpl. rewrite delete_insert_eq, delete_id by exact Hfree.
  now destruct st.
Qed.

Lemma append_succeeds (w : nat) (T : string) (b : string) (now : Z) (st : Store) :
  in_flight st !! T = None ->
  fst (append_checkpoint digest_of w T b now true st)
  = inr (S (max_sequence (history T st))).
Proof.
  intros Hfree. unfold append_checkpoint, begin_append. rewrite Hfree.
  unfold commit_append. simpl. now rewrite lookup_insert_eq, Nat.eqb_refl.
Qed.

(** C5: when the durable backend fails during the append of the final
    checkpoint, the turn ends with StorageFailure; the store is exactly as
    before (no new or partial checkpoint, the same latest checkpoint), the
    thread is not marked COMPLETED (the registry is untouched), and the
    thread is resumable: the next append gets the number right after the
    previous maximum, and the thread's producer slot is free again. *)
Theorem storage_failure_keeps_thread_resumable (w : nat) (T : string)
    (tok : nat) (final : string) (now : Z) (r : Relay) :
  in_flight (store r) !! T = None ->
  let out := complete_turn digest_of w T tok final now false r in
  fst out = inl StorageFailure
  /\ store (snd out) = store r
  /\ latest_checkpoint T (store (snd out)) = latest_checkpoint T (store r)
  /\ registry (snd out) = registry r
  /\ (forall w' b now',
        fst (append_checkpoint digest_of w' T b now' true (store (snd out)))
        = inr (S (max_sequence (history T (store r)))))
  /\ (forall s,
        mux_reachable window capacity (mux r) ->
        sessions (mux r) !! tok = Some s ->
        thread_id s = T ->
        producer_live s = true ->
        fst (open T (mux (snd out))) = inr (length (sessions (mux r)))).
Proof.
  intros Hfree out. subst out. unfold complete_turn.
  rewrite (append_storage_failure w T final now (store r) Hfree). simpl.
  split; [reflexivity|]. split; [reflexivity|]. split; [reflexivity|].
  split; [reflexivity|]. split.
  - intros w' b now'. now apply append_succeeds.
  - intros s Hreach Htok <- Hlive.
    destruct (closed_frees_thread (mux r) tok s Errored
                (mux_reachable_ok window capacity (mux r) Hreach) Htok Hlive)
      as (m' & Hclose & Hlen & Hfree').
    rewrite Hclose. simpl. unfold open. now rewrite Hfree', Hlen.
Qed.

End OrchestratorFacts.

Lemma storage_failure_keeps_thread_resumable_witness :
  fst (Relay.complete_turn (fun b => b) 1 "t1" 0 "state-2" 2 false sample_relay)
  = inl Relay.StorageFailure.
Proof.
  apply (storage_failure_keeps_thread_resumable (fun b => b) 3 4 1 "t1" 0
           "state-2" 2 sample_relay).
  vm_compute. reflexivity.
Defined.

(** With the backend up the same turn commits checkpoint 2 and marks the
    thread COMPLETED; with it down the thread stays ACTIVE at checkpoint 1. *)
Example complete_turn_commits :
  let out := Relay.complete_turn (fun b => b) 1 "t1" 0 "state-2" 2 true sample_relay in
  (fst out,
   Relay.lifecycle <$> Relay.registry (snd out) !! "t1",
   Relay.sequence_number <$> Relay.latest_checkpoint "t1" (Relay.store (snd out)))
  = (inr 2, Some Relay.COMPLETED, Some 2).
Proof. vm_compute. reflexivity. Qed.

Example complete_turn_aborts :
  let out := Relay.complete_turn (fun b => b) 1 "t1" 0 "state-2" 2 false sample_relay in
  (fst out,
   Relay.lifecycle <$> Relay.registry (snd out) !! "t1",
   Relay.sequence_number <$> Relay.latest_checkpoint "t1" (Relay.store (snd out)))
  = (inl Relay.StorageFailure, Some Relay.ACTIVE, Some 1).
Proof. vm_compute. reflexivity. Qed.

(** ** UserService: update, delete and how the webhook methods compose *)

Section UserOpsFacts.
Import Users UserOps.

Variable trim : string -> string.
Variable schema_rejects :
  gmap string User -> string -> string -> option string -> option string.
Variable update_rejects :
  gmap string User -> string -> string -> option string -> option string.
Variable delete_rejects : gmap string User -> string -> option string.

Lemma createUser_frame (now : Z) (clerkId : string) (payload : ClerkUser)
    (table : gmap string User) (k : string) :
  k <> clerkId ->
  table_after (createUser trim schema_rejects now clerkId payload table) !! k
  = table !! k.
Proof.
  intros Hk. unfold createUser, findUserById, prisma_user_create.
  destruct (table !! clerkId); [reflexivity|].
  destruct (schema_rejects table clerkId _ _); unfold table_after; simpl;
    [reflexivity|].
  now apply lookup_insert_ne.
Qed.

(** X1: [createUser] never changes a row that is already in the table,
    whether it is the row asked for or another one. *)
Theorem createUser_keeps_existing_rows (now : Z) (clerkId : string)
    (payload : ClerkUser) (table : gmap string User) (k : string) (u : User) :
  table !! k = Some u ->
  table_after (createUser trim schema_rejects now clerkId payload table) !! k
  = Some u.
Proof.
  intros Hk. unfold createUser, findUserById, prisma_user_create.
  destruct (table !! clerkId) as [existing|] eqn:Hid; [exact Hk|].
  destruct (schema_rejects table clerkId _ _); unfold table_after; simpl;
    [exact Hk|].
  rewrite lookup_insert_ne; [exact Hk|]. intros ->. congruence.
Qed.

(** A successful [createUser] on an unknown id stores the row it returns,
    built from the payload, and leaves every other key as it was. *)
Lemma createUser_stores_payload (now : Z) (clerkId : string)
    (payload : ClerkUser) (table : gmap string User) (r : IUser) :
  table !! clerkId = None ->
  result_of (createUser trim schema_rejects now clerkId payload table) = inr r ->
  let after := table_after (createUser trim schema_rejects now clerkId payload table) in
  user r = mkUser clerkId (extractEmailFromWebhook payload)
                  (extractNameFromWebhook trim payload) now now
  /\ after = <[clerkId := user r]> table.
Proof.
  intros Hnone. unfold createUser, findUserById, prisma_user_create.
  rewrite Hnone. destruct (schema_rejects table clerkId _ _);
    unfold result_of, table_after; simpl; intros Hres; [discriminate|].
  inversion Hres; subst r. simpl. split; reflexivity.
Qed.

(** X2: [deleteUser]: another user's row is never touched; after a successful
    call the user is absent; a failed call changes nothing. *)
Theorem deleteUser_effect (clerkId : string) (table : gmap string User) :
  let r := deleteUser delete_rejects clerkId table in
  (forall k, k <> clerkId -> table_after r !! k = table !! k)
  /\ (result_of r = inr tt -> table_after r !! clerkId = None)
  /\ (forall err, result_of r = inl err -> table_after r = table).
Proof.
  unfold deleteUser, findUserById, prisma_user_delete.
  destruct (table !! clerkId) as [old|] eqn:Hid; unfold result_of, table_after; simpl.
  - destruct (delete_rejects table clerkId); simpl.
    + split; [reflexivity|]. split; [discriminate | reflexivity].
    + split; [intros k Hk; now apply lookup_delete_ne|].
      split; [intros _; apply lookup_delete_eq | discriminate].
  - split; [reflexivity|]. split; [intros _; exact Hid | discriminate].
Qed.

(** X3: Deleting an unknown user succeeds without issuing a delete, and
    [deleteUser] is idempotent: a second call leaves the table as the
    first left it. *)
Theorem deleteUser_idempotent (clerkId : string) (table : gmap string User) :
  (table !! clerkId = None ->
     result_of (deleteUser delete_rejects clerkId table) = inr tt
     /\ table_after (deleteUser delete_rejects clerkId table) = table
     /\ Forall (fun e => is_write e = false)
          (effects_of (deleteUser delete_rejects clerkId table)))
  /\ (let once := table_after (deleteUser delete_rejects clerkId table) in
      table_after (deleteUser delete_rejects clerkId once) = once).
Proof.
  split.
  - intros Hnone. unfold deleteUser, findUserById. rewrite Hnone.
    unfold result_of, table_after, effects_of. simpl.
    repeat split; repeat constructor.
  - simpl. unfold deleteUser at 2 3, findUserById, prisma_user_delete.
    destruct (table !! clerkId) as [old|] eqn:Hid.
    + destruct (delete_rejects table clerkId) eqn:Hrej; unfold table_after at 2 3; simpl.
      * unfold deleteUser, findUserById, prisma_user_delete.
        now rewrite Hid, Hrej.
      * unfold deleteUser, findUserById. now rewrite lookup_delete_eq.
    + unfold table_after at 2 3. simpl.
      unfold deleteUser, findUserById. now rewrite Hid.
Qed.

(** X4: Creating an unknown user and then deleting it gives back the table
    one started from. *)
Theorem create_then_delete_restores (now : Z) (clerkId : string)
    (payload : ClerkUser) (table : gmap string User) (r : IUser) :
  table !! clerkId = None ->
  result_of (createUser trim schema_rejects now clerkId payload table) = inr r ->
  let created := table_after (createUser trim schema_rejects now clerkId payload table) in
  result_of (deleteUser delete_rejects clerkId created) = inr tt ->
  table_after (deleteUser delete_rejects clerkId created) = table.
Proof.
  intros Hnone Hres created.
  destruct (createUser_stores_payload now clerkId payload table r Hnone Hres)
    as [_ Hafter].
  subst created. rewrite Hafter.
  unfold deleteUser, findUserById, prisma_user_delete.
  rewrite lookup_insert_eq.
  destruct (delete_rejects _ clerkId); unfold result_of, table_after; simpl;
    [discriminate|].
  intros _. now apply delete_insert_id.
Qed.

(** X5: A successful [updateUser] leaves the user in the table with the email
    and name of the payload, whether the user existed before or not. *)
Theorem updateUser_upserts (now : Z) (clerkId : string) (payload : ClerkUser)
    (table : gmap string User) (r : IUser) :
  result_of (updateUser trim schema_rejects update_rejects now clerkId payload table)
  = inr r ->
  table_after (updateUser trim schema_rejects update_rejects now clerkId payload table)
    !! clerkId = Some (user r)
  /\ email (user r) = extractEmailFromWebhook payload
  /\ name (user r) = extractNameFromWebhook trim payload.
Proof.
  unfold updateUser, findUserById.
  destruct (table !! clerkId) as [old|] eqn:Hid.
  - unfold prisma_user_update. rewrite Hid.
    destruct (update_rejects table clerkId _ _); unfold result_of, table_after;
      simpl; intros Hres; [discriminate|].
    inversion Hres; subst r. simpl.
    split; [apply lookup_insert_eq | split; reflexivity].
  - pose proof (createUser_stores_payload now clerkId payload table) as Hcreate.
    destruct (createUser trim schema_rejects now clerkId payload table)
      as [[res table'] effects] eqn:Hc.
    unfold result_of, table_after in *. simpl in *. intros ->.
    destruct (Hcreate r Hid eq_refl) as [Hr ->].
    split; [apply lookup_insert_eq|]. rewrite Hr. split; reflexivity.
Qed.

(** X6: [updateUser] on an existing user keeps the row's id and creation time
    and never touches another user's row. *)
Theorem updateUser_preserves (now : Z) (clerkId : string) (payload : ClerkUser)
    (table : gmap string User) :
  let out := updateUser trim schema_rejects update_rejects now clerkId payload table in
  (forall old r,
      table !! clerkId = Some old -> result_of out = inr r ->
      id (user r) = id old /\ createdAt (user r) = createdAt old)
  /\ (forall k u, k <> clerkId -> table !! k = Some u -> table_after out !! k = Some u).
Proof.
  simpl. split.
  - intros old r Hid. unfold updateUser, findUserById, prisma_user_update.
    rewrite Hid. destruct (update_rejects table clerkId _ _);
      unfold result_of; simpl; intros Hres; [discriminate|].
    inversion Hres; subst r. split; reflexivity.
  - intros k u Hk Hlook. unfold updateUser, findUserById.
    destruct (table !! clerkId) as [old|] eqn:Hid.
    + unfold prisma_user_update. rewrite Hid.
      destruct (update_rejects table clerkId _ _); unfold table_after; simpl;
        [exact Hlook|].
      rewrite lookup_insert_ne; [exact Hlook | congruence].
    + pose proof (createUser_frame now clerkId payload table k Hk) as Hframe.
      destruct (createUser trim schema_rejects now clerkId payload table)
        as [[res table'] effects].
      unfold table_after in *. simpl in *. now rewrite Hframe.
Qed.

End UserOpsFacts.

(** ** Email and name extraction; user.mapper.ts *)

Section ExtractionFacts.
Import Users Mapper.

Lemma find_primary_spec (u : ClerkUser) (l : list EmailAddress) (e : EmailAddress) :
  find (is_primary u) l = Some e ->
  In e l /\ primary_email_address_id u = Some (ea_id e).
Proof.
  intros Hfind. apply find_some in Hfind. destruct Hfind as [Hin Hprim].
  split; [exact Hin|]. unfold is_primary in Hprim.
  destruct (primary_email_address_id u) as [p|]; [|discriminate].
  apply String.eqb_eq in Hprim. now rewrite Hprim.
Qed.

(** X7: A non-empty extracted email is the address of an entry of
    [email_addresses] whose id is the primary id; without a primary id,
    without addresses or without an address on the entry the result is
    the empty string. *)
Theorem extractEmail_is_primary_address (u : ClerkUser) :
  (extractEmailFromWebhook u <> "" ->
     exists l e, email_addresses u = Some l /\ In e l
                 /\ primary_email_address_id u = Some (ea_id e)
                 /\ email_address e = Some (extractEmailFromWebhook u))
  /\ (primary_email_address_id u = None -> extractEmailFromWebhook u = "")
  /\ (email_addresses u = None -> extractEmailFromWebhook u = "").
Proof.
  unfold extractEmailFromWebhook. split; [|split].
  - destruct (email_addresses u) as [l|]; simpl; [|congruence].
    destruct (find (is_primary u) l) as [e|] eqn:Hfind; simpl; [|congruence].
    destruct (find_primary_spec u l e Hfind) as [Hin Hprim].
    destruct (email_address e) as [a|] eqn:Ha; simpl; [|congruence].
    destruct (String.eqb a ""); [congruence|].
    intros _. exists l, e. repeat split; assumption.
  - intros Hnone. destruct (email_addresses u) as [l|]; simpl; [|reflexivity].
    assert (find (is_primary u) l = None) as ->; [|reflexivity].
    induction l as [|e l IH]; simpl; [reflexivity|].
    unfold is_primary at 1. now rewrite Hnone.
  - intros ->. reflexivity.
Qed.

Lemma or_null_or_default (v : option string) :
  Js.or_default (or_null v) "" = Js.or_default v "".
Proof.
  destruct v as [s|]; simpl; [|reflexivity].
  destruct (String.eqb s "") eqn:Hs; simpl; [reflexivity | now rewrite Hs].
Qed.

(** X8: The webhook mapper and the service extract the same email: the
    mapper's [null] is the service's empty string, and the mapper never
    yields an empty string. *)
Theorem mapper_email_agrees_with_service (clerkId a b : string) (u : ClerkUser) :
  Js.or_default (input_email (mapClerkWebhookUserToDbUser clerkId a b u)) ""
  = extractEmailFromWebhook u
  /\ input_email (mapClerkWebhookUserToDbUser clerkId a b u) <> Some "".
Proof.
  unfold mapClerkWebhookUserToDbUser, extractEmailFromWebhook. simpl. split.
  - apply or_null_or_default.
  - destruct (_ ≫= email_address) as [s|]; simpl; [|discriminate].
    destruct (String.eqb_spec s ""); [discriminate|]. congruence.
Qed.

Lemma eqb_nonempty (x : string) : x <> "" -> String.eqb x "" = false.
Proof. intros Hx. now destruct (String.eqb_spec x ""). Qed.

Lemma eqb_append_nonempty (x y : string) :
  x <> "" -> String.eqb (x ++ y)%string "" = false.
Proof. destruct x; [congruence | reflexivity]. Qed.

(** X9: The name built by the webhook mapper: both names joined by one space
    when both are present, the one present when only one is, and [null]
    when neither is. No separator is left over from a missing part. *)
Theorem mapper_name_spec (clerkId a b : string) (u : ClerkUser) :
  input_name (mapClerkWebhookUserToDbUser clerkId a b u)
  = match or_null (first_name u), or_null (last_name u) with
    | Some f, Some l => Some (f ++ " " ++ l)%string
    | Some f, None => Some f
    | None, Some l => Some l
    | None, None => None
    end.
Proof.
  unfold mapClerkWebhookUserToDbUser, filter_Boolean.
  destruct (first_name u) as [f|], (last_name u) as [l|]; cbn;
    repeat match goal with
           | |- context [String.eqb ?x ""] =>
               is_var x; destruct (String.eqb_spec x "") as [->|?]; cbn
           end;
    rewrite ?eqb_append_nonempty, ?eqb_nonempty by assumption;
    first [reflexivity | congruence].
Qed.

Lemma find_map_email (p : option string) (l : list ApiEmailAddress) :
  find (fun e => match p with Some q => String.eqb (ea_id e) q | None => false end)
       (map (fun e => mkEmail (api_id e) (emailAddress e)) l)
  = (fun e => mkEmail (api_id e) (emailAddress e))
    <$> find (fun e => match p with Some q => String.eqb (api_id e) q | None => false end) l.
Proof.
  induction l as [|e l IH]; simpl; [reflexivity|].
  destruct p as [q|]; simpl.
  - destruct (String.eqb (api_id e) q); [reflexivity | exact IH].
  - exact IH.
Qed.

(** X10: The two mappers agree: on an API user the camel-case mapper yields
    what the webhook mapper yields on the same data, and neither depends
    on the two language ids. *)
Theorem mappers_agree (clerkId a b a' b' : string) (u : ApiUser) :
  mapClerkUserToDbUser clerkId a b u
  = mapClerkWebhookUserToDbUser clerkId a' b' (to_webhook u).
Proof.
  unfold mapClerkUserToDbUser, mapClerkWebhookUserToDbUser, to_webhook. simpl.
  f_equal. f_equal.
  destruct (emailAddresses u) as [l|]; simpl; [|reflexivity].
  unfold is_primary. simpl. rewrite find_map_email.
  now destruct (find _ l).
Qed.

End ExtractionFacts.

(** ** WebhookService and WebhookController *)

Section WebhookFacts.
Import Nest Users UserOps Webhook.

Variable trim : string -> string.
Variable schema_rejects :
  gmap string User -> string -> string -> option string -> option string.
Variable update_rejects :
  gmap string User -> string -> string -> option string -> option string.
Variable delete_rejects : gmap string User -> string -> option string.
Variable Payload : Type.
Variable svix_verify :
  string -> Payload -> string -> string -> string -> option ClerkWebhookEvent.

Lemma updateUser_frame (now : Z) (clerkId : string) (payload : ClerkUser)
    (table : gmap string User) (k : string) :
  k <> clerkId ->
  table_after (updateUser trim schema_rejects update_rejects now clerkId payload table)
    !! k = table !! k.
Proof.
  intros Hk. unfold updateUser, findUserById.
  destruct (table !! clerkId) as [old|] eqn:Hid.
  - unfold prisma_user_update. rewrite Hid.
    destruct (update_rejects table clerkId _ _); unfold table_after; simpl;
      [reflexivity|].
    now apply lookup_insert_ne.
  - pose proof (createUser_frame trim schema_rejects now clerkId payload table k Hk)
      as Hframe.
    destruct (createUser trim schema_rejects now clerkId payload table)
      as [[res table'] effects].
    exact Hframe.
Qed.

Lemma deleteUser_frame (clerkId : string) (table : gmap string User) (k : string) :
  k <> clerkId ->
  table_after (deleteUser delete_rejects clerkId table) !! k = table !! k.
Proof.
  intros Hk. unfold deleteUser, findUserById, prisma_user_delete.
  destruct (table !! clerkId); unfold table_after; simpl; [|reflexivity].
  destruct (delete_rejects table clerkId); simpl; [reflexivity|].
  now apply lookup_delete_ne.
Qed.

(** The table after [handleWebhook] is the table the service method of
    the event's type leaves. *)
Lemma handleWebhook_table (now : Z) (event : ClerkWebhookEvent)
    (table : gmap string User) :
  table_after (handleWebhook trim schema_rejects update_rejects delete_rejects
                 now event table)
  = if String.eqb (type event) USER_CREATED
    then table_after (createUser trim schema_rejects now (data_id event)
                        (data event) table)
    else if String.eqb (type event) USER_UPDATED
    then table_after (updateUser trim schema_rejects update_rejects now
                        (data_id event) (data event) table)
    else if String.eqb (type event) USER_DELETED
    then table_after (deleteUser delete_rejects (data_id event) table)
    else table.
Proof.
  unfold handleWebhook, handleUserCreated, handleUserUpdated, handleUserDeleted.
  destruct (String.eqb (type event) USER_CREATED).
  { destruct (createUser _ _ _ _ _ _) as [[[e|r] t] effs]; reflexivity. }
  destruct (String.eqb (type event) USER_UPDATED).
  { destruct (updateUser _ _ _ _ _ _ _) as [[[e|r] t] effs]; reflexivity. }
  destruct (String.eqb (type event) USER_DELETED).
  { destruct (deleteUser _ _ _) as [[[e|r] t] effs]; reflexivity. }
  reflexivity.
Qed.

(** X11: An event changes at most the row of the user it carries: every other
    key of the table reads the same before and after [handleWebhook]. *)
Theorem handleWebhook_touches_only_its_user (now : Z) (event : ClerkWebhookEvent)
    (table : gmap string User) (k : string) :
  k <> data_id event ->
  table_after (handleWebhook trim schema_rejects update_rejects delete_rejects
                 now event table) !! k
  = table !! k.
Proof.
  intros Hk. rewrite handleWebhook_table.
  destruct (String.eqb (type event) USER_CREATED); [now apply createUser_frame|].
  destruct (String.eqb (type event) USER_UPDATED); [now apply updateUser_frame|].
  destruct (String.eqb (type event) USER_DELETED); [now apply deleteUser_frame|].
  reflexivity.
Qed.

(** X12: An event whose type is none of user.created, user.updated and
    user.deleted (the session events, or any other string) is
    acknowledged: no query is made, the table is unchanged and nothing is
    thrown. *)
Theorem unhandled_event_is_ignored (now : Z) (event : ClerkWebhookEvent)
    (table : gmap string User) :
  type event <> USER_CREATED ->
  type event <> USER_UPDATED ->
  type event <> USER_DELETED ->
  let out := handleWebhook trim schema_rejects update_rejects delete_rejects
               now event table in
  result_of out = inr tt
  /\ table_after out = table
  /\ Forall (fun e => is_query e = false) (effects_of out).
Proof.
  intros Hc Hu Hd. unfold handleWebhook.
  rewrite (proj2 (String.eqb_neq _ _) Hc), (proj2 (String.eqb_neq _ _) Hu),
    (proj2 (String.eqb_neq _ _) Hd).
  unfold result_of, table_after, effects_of. simpl.
  repeat split; repeat constructor.
Qed.





(** X14: A request that lacks one of the three svix headers (absent or empty)
    is refused with BadRequestException 'Missing svix headers' before the
    secret is read or the service is reached: the table is unchanged and
    nothing is logged. *)
Theorem webhook_missing_header_refused (now : Z) (secret : option string)
    (payload : Payload) (svixId svixTimestamp svixSignature : option string)
    (table : gmap string User) :
  Js.truthy_string svixId = false \/ Js.truthy_string svixTimestamp = false
  \/ Js.truthy_string svixSignature = false ->
  handleClerkWebhook trim schema_rejects update_rejects delete_rejects Payload
    svix_verify now secret payload svixId svixTimestamp svixSignature table
  = (inl (Http (throw BadRequestException "Missing svix headers")), table, []).
Proof.
  intros Hmissing. unfold handleClerkWebhook.
  destruct Hmissing as [-> | [-> | ->]]; simpl;
    rewrite ?orb_true_r; reflexivity.
Qed.

(** X15: With the headers and the secret present, the controller either
    answers [{ success: true }] or throws BadRequestException 'Invalid
    webhook signature'; it throws exactly when the verification or the
    service failed, so a database rejection is reported as an invalid
    signature too. When the verification fails the table is unchanged and
    no query is made. *)
Theorem webhook_failures_reported_as_invalid_signature (now : Z)
    (secret svixId svixTimestamp svixSignature : string) (payload : Payload)
    (table : gmap string User) :
  secret <> "" -> svixId <> "" -> svixTimestamp <> "" -> svixSignature <> "" ->
  let out := handleClerkWebhook trim schema_rejects update_rejects delete_rejects
               Payload svix_verify now (Some secret) payload
               (Some svixId) (Some svixTimestamp) (Some svixSignature) table in
  let invalid := inl (Http (throw BadRequestException "Invalid webhook signature")) in
  match svix_verify secret payload svixId svixTimestamp svixSignature with
  | None =>
      result_of out = invalid /\ table_after out = table
      /\ Forall (fun e => is_query e = false) (effects_of out)
  | Some event =>
      let served := handleWebhook trim schema_rejects update_rejects
                      delete_rejects now event table in
      table_after out = table_after served
      /\ match result_of served with
         | inr _ => result_of out = inr (mkSuccess true)
         | inl _ => result_of out = invalid
         end
  end.
Proof.
  intros Hs Hi Ht Hg. unfold handleClerkWebhook. simpl.
  rewrite !eqb_nonempty by assumption. simpl.
  destruct (svix_verify secret payload svixId svixTimestamp svixSignature)
    as [event|].
  - destruct (handleWebhook _ _ _ _ now event table) as [[[err|ok] table'] effects];
      unfold result_of, table_after; simpl; split; reflexivity.
  - unfold result_of, table_after, effects_of. simpl.
    repeat split; repeat constructor.
Qed.

End WebhookFacts.

(** ** RedisService: life cycle *)

Section RedisLifeFacts.
Import Nest Redis RedisLife.

Lemma unavailable_call_throws (server : Command -> Reply) (op : Operation)
    (s : RedisService) :
  isAvailable s = false -> call server op s = (inl not_connected, s).
Proof.
  intros Hdown. unfold call.
  now rewrite (proj1 (guard_iff_unavailable s) Hdown).
Qed.

Lemma run_cons (x : Stimulus) (xs : list Stimulus) (s : RedisService) :
  run (x :: xs) s = run xs (fst (react x s)).
Proof. reflexivity. Qed.

(** X16: Without a configured REDIS_URL no client is ever created, whatever
    else happens: the service stays unavailable and every data operation
    throws the BadRequestException of the guard. *)
Theorem redis_disabled_without_url (xs : list Stimulus) :
  forallb (fun x => negb (configures x)) xs = true ->
  client (run xs initial) = None
  /\ isAvailable (run xs initial) = false
  /\ forall server op,
       call server op (run xs initial) = (inl not_connected, run xs initial).
Proof.
  intros Hnone.
  assert (run xs initial = initial) as ->.
  { induction xs as [|x xs IH]; [reflexivity|].
    simpl in Hnone. apply andb_prop in Hnone. destruct Hnone as [Hx Hxs].
    rewrite run_cons.
    assert (fst (react x initial) = initial) as ->; [|now apply IH].
    destruct x as [url refused| | | | | | |]; simpl; try reflexivity.
    simpl in Hx. now rewrite Hx. }
  split; [reflexivity|]. split; [reflexivity|].
  intros server op. now apply unavailable_call_throws.
Qed.

Lemma stays_disconnected (xs : list Stimulus) :
  forall s,
  forallb (fun x => negb (is_connect x)) xs = true ->
  isConnected s = false ->
  isConnected (run xs s) = false.
Proof.
  induction xs as [|x xs IH]; intros s Hno Hs; [exact Hs|].
  simpl in Hno. apply andb_prop in Hno. destruct Hno as [Hx Hxs].
  rewrite run_cons. apply IH; [exact Hxs|].
  destruct x as [url refused| | | | | | |]; simpl in *; try discriminate.
  - now destruct (negb (Js.truthy_string url)), refused.
  - now destruct (client s).
  - now destruct (client s).
  - now destruct (client s).
  - now destruct (client s).
  - now destruct (client s).
  - now destruct (truthy (client_isReady s)).
Qed.

(** X17: After an 'error' event of the client the service is unavailable, and
    stays so until a 'connect' event arrives, even if the client reports
    ready again: every data operation in between throws. *)
Theorem redis_error_disables_until_connect (message : string)
    (xs : list Stimulus) (s : RedisService) :
  is_Some (client s) ->
  forallb (fun x => negb (is_connect x)) xs = true ->
  let s' := run xs (fst (react (ClientError message) s)) in
  isAvailable s' = false
  /\ forall server op, call server op s' = (inl not_connected, s').
Proof.
  intros [c Hc] Hno s'.
  assert (isAvailable s' = false) as Hdown.
  { unfold isAvailable. subst s'.
    rewrite (stays_disconnected xs _ Hno); [reflexivity|].
    simpl. now rewrite Hc. }
  split; [exact Hdown|]. intros server op. now apply unavailable_call_throws.
Qed.

End RedisLifeFacts.

Lemma redis_disabled_without_url_witness :
  Redis.isAvailable
    (RedisLife.run [RedisLife.ModuleInit None None; RedisLife.ClientConnect;
                    RedisLife.ReadyChanged true; RedisLife.ModuleInit (Some "") None]
       RedisLife.initial) = false.
Proof.
  apply (redis_disabled_without_url
           [RedisLife.ModuleInit None None; RedisLife.ClientConnect;
            RedisLife.ReadyChanged true; RedisLife.ModuleInit (Some "") None]).
  reflexivity.
Defined.

Lemma redis_error_disables_until_connect_witness :
  Redis.isAvailable
    (RedisLife.run [RedisLife.ClientReconnecting; RedisLife.ReadyChanged true]
       (fst (RedisLife.react (RedisLife.ClientError "ECONNRESET")
               (Redis.mkService (Some (Redis.mkClient true [])) true)))) = false.
Proof.
  apply (redis_error_disables_until_connect "ECONNRESET"
           [RedisLife.ClientReconnecting; RedisLife.ReadyChanged true]
           (Redis.mkService (Some (Redis.mkClient true [])) true)).
  - eexists. reflexivity.
  - reflexivity.
Defined.

(** The same events with a 'connect' in between make the service
    available again. *)
Example redis_available_after_reconnect :
  Redis.isAvailable
    (RedisLife.run [RedisLife.ModuleInit (Some "redis://localhost:6379") None;
                    RedisLife.ClientConnect; RedisLife.ReadyChanged true;
                    RedisLife.ClientError "ECONNRESET"; RedisLife.ClientConnect]
       RedisLife.initial) = true.
Proof. reflexivity. Qed.

(** ** RedisController *)

Section RedisControllerFacts.
Import Nest Redis Env RedisController.

Variable server : Command -> string + Reply.
Variable parseInt : string -> Number.

(** On an available service [invoke] sends its command, whatever the
    server answers, and the service stays available. *)
Lemma invoke_available (op : Operation) (s : RedisService) :
  isAvailable s = true ->
  wire (snd (invoke server op s)) = wire s ++ [command_of op]
  /\ isAvailable (snd (invoke server op s)) = true
  /\ fst (invoke server op s)
     = match server (command_of op) with
       | inl message => inl (Rejected message)
       | inr r => inr (returned op r)
       end.
Proof.
  intros Hup. destruct (guard_passes s Hup) as (c & Hc & Hguard).
  unfold invoke. rewrite Hguard.
  assert (isAvailable (mkService (Some (send c (command_of op))) (isConnected s)) = true)
    as Hup'.
  { unfold isAvailable in *. unfold client_isReady in *. rewrite Hc in Hup.
    simpl in *. exact Hup. }
  destruct (server (command_of op)); simpl; unfold wire; simpl; rewrite Hc;
    repeat split; assumption || reflexivity.
Qed.

(** X18: [getMetrics] sends nothing while the service is unavailable and then
    answers the fixed "not configured" response without throwing; while
    it is available it sends DBSIZE and then INFO for the three sections,
    and nothing else, whether or not the call succeeds. *)
Theorem getMetrics_commands (s : RedisService) :
  let out := getMetrics server parseInt s in
  (isAvailable s = false ->
     out = (inr (mkMetrics false "Redis is not configured or not connected"
                   (RInteger 0) "0" (Finite 0) (Finite 0)), s, []))
  /\ (isAvailable s = true ->
     wire (Users.table_after out) = wire s ++ metrics_commands).
Proof.
  simpl. unfold getMetrics. split; intros Havail; rewrite Havail; simpl.
  - reflexivity.
  - destruct (invoke_available dbSize s Havail) as (Hw1 & Hup1 & _).
    destruct (invoke server dbSize s) as [r1 s1]. simpl in *.
    destruct (invoke_available (info (Some "server,memory,clients")) s1 Hup1)
      as (Hw2 & _ & _).
    destruct (invoke server (info (Some "server,memory,clients")) s1) as [r2 s2].
    simpl in *.
    assert (wire s2 = wire s ++ metrics_commands) as Hwire.
    { rewrite Hw2, Hw1, <- app_assoc. reflexivity. }
    destruct r1 as [f1|d]; [exact Hwire|].
    destruct r2 as [f2|[]]; exact Hwire.
Qed.

Lemma or_zero_not_NaN (n : Number) : or_zero n <> NaN.
Proof.
  destruct n as [|neg|q]; simpl; try discriminate.
  destruct (Qeq_bool q 0); discriminate.
Qed.

(** X19: Whenever [getMetrics] returns a response, its [uptime] and
    [connectedClients] are numbers (never NaN, whatever [parseInt] makes
    of the INFO text), its [isAvailable] flag is the service's, and
    [memoryUsed] is not the empty string. *)
Theorem getMetrics_response_wellformed (s : RedisService) (m : CacheMetricsResponse) :
  Users.result_of (getMetrics server parseInt s) = inr m ->
  uptime m <> NaN /\ connectedClients m <> NaN
  /\ metrics_isAvailable m = isAvailable s
  /\ memoryUsed m <> "".
Proof.
  unfold getMetrics. destruct (isAvailable s); simpl.
  - destruct (invoke server dbSize s) as [r1 s1].
    destruct (invoke server (info (Some "server,memory,clients")) s1) as [r2 s2].
    destruct r1 as [f1|d]; [discriminate|].
    destruct r2 as [f2|[]]; try discriminate.
    unfold Users.result_of. simpl. intros Hm. inversion Hm; subst m. simpl.
    repeat split; try apply or_zero_not_NaN.
    unfold info_field, Js.or_default.
    destruct (_ ≫= _) as [v|]; [|discriminate].
    destruct (String.eqb_spec v ""); [discriminate | assumption].
  - unfold Users.result_of. simpl. intros Hm. inversion Hm; subst m. simpl.
    repeat split; discriminate.
Qed.

(** X20: [refreshCache] throws 'Redis is not available' and sends nothing
    while the service is unavailable; otherwise it sends exactly one
    FLUSHALL, and reports the cache cleared exactly when the server
    accepted it. *)
Theorem refreshCache_spec (s : RedisService) :
  let out := refreshCache server s in
  (isAvailable s = false ->
     out = (inl (throw BadRequestException "Redis is not available"), s, []))
  /\ (isAvailable s = true ->
     wire (Users.table_after out) = wire s ++ [FLUSHALL]
     /\ Users.result_of out
        = match server FLUSHALL with
          | inr _ => inr (mkRefreshed "Cache cleared successfully" true)
          | inl _ => inl (throw BadRequestException "Failed to refresh cache")
          end).
Proof.
  simpl. unfold refreshCache. split; intros Havail; rewrite Havail; simpl.
  - reflexivity.
  - destruct (invoke_available flushAll s Havail) as (Hw & _ & Hres).
    destruct (invoke server flushAll s) as [r s']. simpl in *. subst r.
    destruct (server FLUSHALL); unfold Users.table_after, Users.result_of; simpl;
      split; assumption || reflexivity.
Qed.

End RedisControllerFacts.

(** ** RedisController: reading the INFO reply *)

Section InfoFacts.
Import Nest Redis Env RedisController.

Lemma split_no_sep (c : ascii) (v : string) :
  Text.has_char c v = false -> Js.split c v = [v].
Proof.
  induction v as [|d v IH]; simpl; [reflexivity|].
  intros Hno. apply orb_false_elim in Hno. destruct Hno as [Hd Hv].
  rewrite Hd, (IH Hv). reflexivity.
Qed.










Variable server : Command -> string + Reply.
Variable parseInt : string -> Number.


End InfoFacts.

(** ** validateEnv: what an accepted configuration looks like *)

Section EnvShapeFacts.
Import Env.

Variable ToString : Value -> string.
Variable ToNumber : Value -> Number.
Variable isURL : string -> bool.

(** Reading a property of the instance built by [plainToInstance]. *)
Lemma read_plainToInstance (config : gmap string Value) (k : string) :
  read (plainToInstance ToString ToNumber config) k
  = match config !! k with
    | Some v =>
        if skipped_key k then read initial_instance k
        else convert ToString ToNumber (design_type k) v
    | None => read initial_instance k
    end.
Proof.
  unfold read, plainToInstance.
  destruct (config !! k) as [v|] eqn:Hk.
  - destruct (skipped_key k) eqn:Hskip.
    + rewrite lookup_union_r; [reflexivity|].
      now rewrite map_lookup_imap, Hk; simpl; rewrite Hskip.
    + erewrite lookup_union_Some_l; [reflexivity|].
      now rewrite map_lookup_imap, Hk; simpl; rewrite Hskip.
  - rewrite lookup_union_r; [reflexivity|].
    now rewrite map_lookup_imap, Hk.
Qed.

(** X22: The initialisers are kept for the keys the configuration does not
    have: NODE_ENV is 'development' and PORT is 3000. A key that is
    present with the value [undefined] is not defaulted. *)
Theorem defaults_for_absent_keys (config : gmap string Value) :
  (config !! "NODE_ENV" = None ->
     read (plainToInstance ToString ToNumber config) "NODE_ENV"
     = VString "development")
  /\ (config !! "PORT" = None ->
     read (plainToInstance ToString ToNumber config) "PORT"
     = VNumber (Finite 3000))
  /\ (config !! "PORT" = Some VUndefined ->
     read (plainToInstance ToString ToNumber config) "PORT" = VUndefined).
Proof.
  repeat split; intros Hk; rewrite read_plainToInstance, Hk; reflexivity.
Qed.


Lemma accepted_all_hold (config o : gmap string Value) :
  fst (validateEnv ToString ToNumber isURL config) = inr o ->
  o = plainToInstance ToString ToNumber config /\ all_constraints_hold isURL o.
Proof.
  unfold validateEnv.
  destruct (validateSync isURL (plainToInstance ToString ToNumber config))
    as [|e errors] eqn:Herr; simpl; intros Hres; [|discriminate].
  inversion Hres; subst o. split; [reflexivity|].
  now apply validateSync_nil_iff.
Qed.

Lemma required_string (o : gmap string Value) (m : PropertyMetadata) :
  all_constraints_hold isURL o ->
  In m metadata -> isOptional m = false ->
  In IsNotEmpty (constraints m) ->
  In IsString (constraints m) \/ In IsUrl (constraints m) ->
  ClerkBoot.nonempty_string (read o (property m)).
Proof.
  intros Hall Hm Hopt Hne Hstr.
  destruct (Hall m IsNotEmpty Hm Hne) as [[Habs _]|Hnonempty]; [congruence|].
  assert (exists s, read o (property m) = VString s) as [s Hs].
  { destruct Hstr as [Hin|Hin];
      (destruct (Hall m _ Hm Hin) as [[Habs _]|Hholds]; [congruence|]);
      simpl in Hholds; destruct (read o (property m)); try discriminate; eauto. }
  exists s. split; [exact Hs|]. rewrite Hs in Hnonempty. simpl in Hnonempty.
  intros ->. discriminate.
Qed.

(** X24: What the rest of the application may rely on once [validateEnv] has
    returned: NODE_ENV is one of the three environments, PORT is a finite
    number not below 1, the database URL and the three Clerk secrets are
    non-empty strings, CLERK_JWKS_URL is a non-empty URL, and REDIS_URL
    is absent or a URL. In particular the constructor of [ClerkStrategy]
    finds its JWKS URL and does not throw. *)
Theorem accepted_configuration_shape (config o : gmap string Value) :
  fst (validateEnv ToString ToNumber isURL config) = inr o ->
  (exists e, read o "NODE_ENV" = VString e /\ In e Environment)
  /\ (exists q, read o "PORT" = VNumber (Finite q) /\ (1 <= q)%Q)
  /\ ClerkBoot.nonempty_string (read o "DATABASE_URL")
  /\ ClerkBoot.nonempty_string (read o "CLERK_PUBLISHABLE_KEY")
  /\ ClerkBoot.nonempty_string (read o "CLERK_SECRET_KEY")
  /\ ClerkBoot.nonempty_string (read o "CLERK_WEBHOOK_SECRET")
  /\ (exists s, read o "CLERK_JWKS_URL" = VString s /\ s <> "" /\ isURL s = true)
  /\ (nullish (read o "REDIS_URL") = true
      \/ exists s, read o "REDIS_URL" = VString s /\ isURL s = true)
  /\ ClerkBoot.construct (read o "CLERK_JWKS_URL") = inr (read o "CLERK_JWKS_URL").
Proof.
  intros Hacc. destruct (accepted_all_hold config o Hacc) as [_ Hall].
  assert (forall m, In m metadata -> isOptional m = false ->
            In IsNotEmpty (constraints m) ->
            In IsString (constraints m) \/ In IsUrl (constraints m) ->
            ClerkBoot.nonempty_string (read o (property m))) as Hreq
    by (intros m; now apply required_string).
  assert (exists s, read o "CLERK_JWKS_URL" = VString s /\ s <> "" /\ isURL s = true)
    as Hjwks.
  { destruct (Hreq (mkMeta "CLERK_JWKS_URL" [IsUrl; IsNotEmpty] false))
      as (s & Hs & Hne); [simpl; tauto..|].
    destruct (Hall (mkMeta "CLERK_JWKS_URL" [IsUrl; IsNotEmpty] false) IsUrl)
      as [[Habs _]|Hurl]; [simpl; tauto | simpl; tauto | discriminate |].
    simpl in Hs, Hurl. rewrite Hs in Hurl. simpl in Hurl.
    exists s. repeat split; assumption. }
  split; [|split; [|split; [|split; [|split; [|split; [|split; [|split]]]]]]].
  - destruct (Hall (mkMeta "NODE_ENV" [IsEnum Environment] false)
                (IsEnum Environment)) as [[Habs _]|Hholds];
      [simpl; tauto | simpl; tauto | discriminate |].
    cbv beta iota delta [holds property] in Hholds.
    destruct (read o "NODE_ENV") as [| | | |e]; try discriminate.
    exists e. split; [reflexivity|].
    apply existsb_exists in Hholds. destruct Hholds as (x & Hx & Heq).
    apply String.eqb_eq in Heq. now subst x.
  - destruct (Hall (mkMeta "PORT" [IsNumber; Min 1] false) IsNumber)
      as [[Habs _]|Hnum]; [simpl; tauto | simpl; tauto | discriminate |].
    destruct (Hall (mkMeta "PORT" [IsNumber; Min 1] false) (Min 1))
      as [[Habs _]|Hmin]; [simpl; tauto | simpl; tauto | discriminate |].
    simpl in Hnum, Hmin.
    destruct (read o "PORT") as [| | |[| |q]|]; try discriminate.
    exists q. split; [reflexivity|]. now apply Qle_bool_iff.
  - apply (Hreq (mkMeta "DATABASE_URL" [IsString; IsNotEmpty] false));
      simpl; tauto.
  - apply (Hreq (mkMeta "CLERK_PUBLISHABLE_KEY" [IsString; IsNotEmpty] false));
      simpl; tauto.
  - apply (Hreq (mkMeta "CLERK_SECRET_KEY" [IsString; IsNotEmpty] false));
      simpl; tauto.
  - apply (Hreq (mkMeta "CLERK_WEBHOOK_SECRET" [IsString; IsNotEmpty] false));
      simpl; tauto.
  - exact Hjwks.
  - destruct (Hall (mkMeta "REDIS_URL" [IsUrl] true) IsUrl)
      as [[_ Hnull]|Hurl]; [simpl; tauto | simpl; tauto | now left |].
    right. simpl in Hurl.
    destruct (read o "REDIS_URL") as [| | | |s]; try discriminate.
    exists s. split; [reflexivity | exact Hurl].
  - destruct Hjwks as (s & Hs & Hne & _). unfold ClerkBoot.construct.
    rewrite Hs. simpl. now rewrite (eqb_nonempty s Hne).
Qed.

End EnvShapeFacts.

(** ** ClerkStrategy.validate: which part of the header is the token *)

Section TokenFacts.
Import Nest Clerk.

Variable Decoded : Type.
Variable VerifyError : Type.
Variable jwt_verify : string -> VerifyError + Decoded.

Lemma split_pieces_no_sep (c : ascii) (s : string) :
  Forall (fun w => Text.has_char c w = false) (Js.split c s).
Proof.
  induction s as [|d s IH]; simpl; [repeat constructor|].
  destruct (Ascii.eqb d c) eqn:Hd; [constructor; [reflexivity | exact IH]|].
  destruct (Js.split c s) as [|w ws]; [repeat constructor; simpl; now rewrite Hd|].
  inversion IH; subst. constructor; [simpl; now rewrite Hd | assumption].
Qed.

Lemma split_app (c : ascii) (p t : string) :
  Js.split c (p ++ String c t)%string = Js.split c p ++ Js.split c t.
Proof.
  induction p as [|d p IH]; simpl.
  - now rewrite Ascii.eqb_refl.
  - destruct (Ascii.eqb d c); [now rewrite IH|].
    rewrite IH. pose proof (split_nonempty c p) as Hne.
    destruct (Js.split c p) as [|w ws]; [congruence | reflexivity].
Qed.

Lemma pop_last_word (p t : string) :
  Text.has_char " " t = false ->
  Js.pop (Js.split " " (p ++ String " " t)%string) = Some t.
Proof.
  intros Ht. unfold Js.pop.
  rewrite split_app, last_app, (split_no_sep " " t Ht). reflexivity.
Qed.

(** X25: The token [validate] verifies is the part of the Authorization header
    after its last space: it never contains a space, a header without any
    space is the token as a whole, and what precedes the last space (the
    scheme word) is never looked at, so two headers that end in the same
    word are treated alike. *)
Theorem token_is_last_word (p p' t h : string) :
  (forall req w, token_of req = Some w -> Text.has_char " " w = false)
  /\ (Text.has_char " " h = false -> token_of (mkRequest (Some h)) = Some h)
  /\ (Text.has_char " " t = false ->
      token_of (mkRequest (Some (p ++ String " " t)%string)) = Some t
      /\ validate Decoded VerifyError jwt_verify
           (mkRequest (Some (p ++ String " " t)%string))
         = validate Decoded VerifyError jwt_verify
             (mkRequest (Some (p' ++ String " " t)%string))).
Proof.
  split; [|split].
  - intros [[hd|]] w; unfold token_of; simpl; [|discriminate].
    intros Hlast. apply last_Some_elem_of in Hlast.
    exact (proj1 (Forall_forall _ _) (split_pieces_no_sep " " hd) w Hlast).
  - intros Hh. unfold token_of. simpl. unfold Js.pop.
    now rewrite (split_no_sep " " h Hh).
  - intros Ht. split.
    + unfold token_of. simpl. now apply pop_last_word.
    + unfold validate, token_of. simpl.
      now rewrite !(pop_last_word _ t Ht).
Qed.

(** X26: [validate] rejects with UnauthorizedException and nothing else;
    without a token it does not attempt a verification, and in no case
    does it attempt more than one. *)
Theorem validate_rejections (req : Request) :
  let out := validate Decoded VerifyError jwt_verify req in
  (forall e, fst out = inl e -> exn_class e = UnauthorizedException)
  /\ (Js.truthy_string (token_of req) = false ->
      out = (inl (throw UnauthorizedException "No token provided"), []))
  /\ length (List.filter Checks.is_verify (snd out)) <= 1.
Proof.
  simpl. unfold validate.
  destruct (Js.truthy_string (token_of req)); simpl.
  - destruct (jwt_verify _); simpl; repeat split; try lia; try discriminate.
    intros e He. now inversion He.
  - repeat split; try lia. intros e He. now inversion He.
Qed.

End TokenFacts.

(** ** PrismaClientExceptionFilter: statuses *)

Section FilterStatusFacts.
Import Nest PrismaFilter.

Lemma switch_in (code : string) (cs : list (string * Exception)) :
  switch code cs = default_case \/ In (switch code cs) (map snd cs).
Proof.
  induction cs as [|[label branch] rest IH]; simpl; [now left|].
  destruct (String.eqb code label); [right; now left|].
  destruct IH as [IH|IH]; [now left | right; now right].
Qed.

(** X27: Whatever the filter is handed, the exception it throws carries an
    error status: at least 400 and below 600. *)
Theorem filter_throws_error_status (exception : PrismaError) :
  (400 <= getStatus (exn_class (catch exception)) < 600)%Z.
Proof.
  assert (Checks.is_error_status (catch exception) = true) as Hok.
  { destruct exception as [code m v|m|]; unfold catch; try reflexivity.
    destruct (switch_in code cases) as [->|Hin]; [reflexivity|].
    assert (forallb Checks.is_error_status (map snd cases) = true) as Hall
      by (vm_compute; reflexivity).
    exact (proj1 (forallb_forall _ _) Hall _ Hin). }
  unfold Checks.is_error_status in Hok. apply andb_prop in Hok.
  destruct Hok as [Hlo Hhi]. apply Z.leb_le in Hlo. apply Z.ltb_lt in Hhi. lia.
Qed.

End FilterStatusFacts.

(** ** Concrete instances *)

Lemma createUser_keeps_existing_rows_witness :
  Users.table_after
    (Users.createUser (fun s => s) accept_all 9 "user_2" grace_payload one_user)
  !! "user_1" = Some ada.
Proof.
  apply (createUser_keeps_existing_rows (fun s => s) accept_all 9 "user_2"
           grace_payload one_user "user_1" ada).
  vm_compute. reflexivity.
Defined.

Lemma deleteUser_effect_witness :
  Users.table_after (UserOps.deleteUser accept_delete "user_1" one_user) !! "user_1"
  = None.
Proof.
  apply (proj1 (proj2 (deleteUser_effect accept_delete "user_1" one_user))).
  vm_compute. reflexivity.
Defined.

Lemma deleteUser_idempotent_witness :
  Users.table_after (UserOps.deleteUser accept_delete "user_9" one_user) = one_user.
Proof.
  apply (proj1 (deleteUser_idempotent accept_delete "user_9" one_user)).
  vm_compute. reflexivity.
Defined.

Lemma create_then_delete_restores_witness :
  Users.table_after
    (UserOps.deleteUser accept_delete "user_2"
       (Users.table_after
          (Users.createUser (fun s => s) accept_all 9 "user_2" grace_payload one_user)))
  = one_user.
Proof.
  apply (create_then_delete_restores (fun s => s) accept_all accept_delete 9
           "user_2" grace_payload one_user
           (Users.mkIUser
              (Users.mkUser "user_2" "grace@example.com" (Some "Grace Hopper") 9 9)
              None)).
  - vm_compute. reflexivity.
  - vm_compute. reflexivity.
  - vm_compute. reflexivity.
Defined.

Lemma updateUser_upserts_witness :
  Users.table_after
    (UserOps.updateUser (fun s => s) accept_all accept_all 9 "user_1"
       grace_payload one_user)
  !! "user_1"
  = Some (Users.mkUser "user_1" "grace@example.com" (Some "Grace Hopper") 5 9).
Proof.
  apply (updateUser_upserts (fun s => s) accept_all accept_all 9 "user_1"
           grace_payload one_user
           (Users.mkIUser
              (Users.mkUser "user_1" "grace@example.com" (Some "Grace Hopper") 5 9)
              None)).
  vm_compute. reflexivity.
Defined.

Lemma updateUser_preserves_witness :
  Users.createdAt
    (Users.mkUser "user_1" "grace@example.com" (Some "Grace Hopper") 5 9)
  = Users.createdAt ada.
Proof.
  apply (proj1 (updateUser_preserves (fun s => s) accept_all accept_all 9 "user_1"
                  grace_payload one_user) ada
           (Users.mkIUser
              (Users.mkUser "user_1" "grace@example.com" (Some "Grace Hopper") 5 9)
              None)).
  - vm_compute. reflexivity.
  - vm_compute. reflexivity.
Defined.

Lemma extractEmail_is_primary_address_witness :
  exists l e,
    Users.email_addresses grace_payload = Some l /\ In e l
    /\ Users.primary_email_address_id grace_payload = Some (Users.ea_id e)
    /\ Users.email_address e = Some (Users.extractEmailFromWebhook grace_payload).
Proof.
  apply (proj1 (extractEmail_is_primary_address grace_payload)).
  vm_compute. discriminate.
Defined.

Lemma handleWebhook_touches_only_its_user_witness :
  Users.table_after
    (Webhook.handleWebhook (fun s => s) accept_all accept_all accept_delete 9
       (Webhook.mkEvent "user_2" grace_payload Webhook.USER_UPDATED) one_user)
  !! "user_1" = one_user !! "user_1".
Proof.
  apply (handleWebhook_touches_only_its_user (fun s => s) accept_all accept_all
           accept_delete 9
           (Webhook.mkEvent "user_2" grace_payload Webhook.USER_UPDATED)
           one_user "user_1").
  discriminate.
Defined.

Lemma unhandled_event_is_ignored_witness :
  Users.table_after
    (Webhook.handleWebhook (fun s => s) accept_all accept_all accept_delete 9
       (Webhook.mkEvent "user_1" grace_payload Webhook.SESSION_CREATED) one_user)
  = one_user.
Proof.
  apply (unhandled_event_is_ignored (fun s => s) accept_all accept_all
           accept_delete 9
           (Webhook.mkEvent "user_1" grace_payload Webhook.SESSION_CREATED)
           one_user); discriminate.
Defined.


Lemma webhook_missing_header_refused_witness :
  Webhook.handleClerkWebhook (fun s => s) accept_all accept_all accept_delete
    Webhook.ClerkWebhookEvent check_signature 9 (Some "whsec")
    (Webhook.mkEvent "user_2" grace_payload Webhook.USER_CREATED)
    (Some "msg_1") None (Some "good") one_user
  = (inl (Webhook.Http
            (Nest.throw Nest.BadRequestException "Missing svix headers")),
     one_user, []).
Proof.
  apply (webhook_missing_header_refused (fun s => s) accept_all accept_all
           accept_delete Webhook.ClerkWebhookEvent check_signature 9 (Some "whsec")
           (Webhook.mkEvent "user_2" grace_payload Webhook.USER_CREATED)
           (Some "msg_1") None (Some "good") one_user).
  right. left. reflexivity.
Defined.

Lemma webhook_failures_reported_as_invalid_signature_witness :
  Users.result_of
    (Webhook.handleClerkWebhook (fun s => s) accept_all accept_all accept_delete
       Webhook.ClerkWebhookEvent check_signature 9 (Some "whsec")
       (Webhook.mkEvent "user_2" grace_payload Webhook.USER_CREATED)
       (Some "msg_1") (Some "1700000000") (Some "forged") one_user)
  = inl (Webhook.Http
           (Nest.throw Nest.BadRequestException "Invalid webhook signature")).
Proof.
  apply (webhook_failures_reported_as_invalid_signature (fun s => s) accept_all
           accept_all accept_delete Webhook.ClerkWebhookEvent check_signature 9
           "whsec" "msg_1" "1700000000" "forged"
           (Webhook.mkEvent "user_2" grace_payload Webhook.USER_CREATED) one_user);
    discriminate.
Defined.

(** The same request with a good signature creates the user. *)
Example webhook_creates_user :
  let out :=
    Webhook.handleClerkWebhook (fun s => s) accept_all accept_all accept_delete
      Webhook.ClerkWebhookEvent check_signature 9 (Some "whsec")
      (Webhook.mkEvent "user_2" grace_payload Webhook.USER_CREATED)
      (Some "msg_1") (Some "1700000000") (Some "good") one_user in
  (Users.result_of out, Users.email <$> Users.table_after out !! "user_2")
  = (inr (Webhook.mkSuccess true), Some "grace@example.com").
Proof. vm_compute. reflexivity. Qed.

Lemma getMetrics_commands_witness :
  Redis.wire (Users.table_after
                (RedisController.getMetrics answering sample_parseInt ready_service))
  = Redis.wire ready_service ++ RedisController.metrics_commands.
Proof.
  apply (proj2 (getMetrics_commands answering sample_parseInt ready_service)).
  reflexivity.
Defined.

Lemma getMetrics_response_wellformed_witness :
  RedisController.uptime
    (RedisController.mkMetrics true "Redis is healthy" (Redis.RInteger 42) "1.50M"
       (Env.Finite 0) (Env.Finite 3))
  <> Env.NaN.
Proof.
  apply (getMetrics_response_wellformed answering sample_parseInt ready_service
           (RedisController.mkMetrics true "Redis is healthy" (Redis.RInteger 42)
              "1.50M" (Env.Finite 0) (Env.Finite 3))).
  vm_compute. reflexivity.
Defined.

Lemma refreshCache_spec_witness :
  Redis.wire (Users.table_after (RedisController.refreshCache answering ready_service))
  = Redis.wire ready_service ++ [Redis.FLUSHALL].
Proof.
  apply (proj2 (refreshCache_spec answering ready_service)).
  reflexivity.
Defined.


Lemma defaults_for_absent_keys_witness :
  Env.read (Env.plainToInstance sample_ToString sample_ToNumber
              (delete "PORT" sample_env)) "PORT"
  = Env.VNumber (Env.Finite 3000).
Proof.
  apply (proj1 (proj2 (defaults_for_absent_keys sample_ToString sample_ToNumber
                         (delete "PORT" sample_env)))).
  vm_compute. reflexivity.
Defined.


Lemma accepted_configuration_shape_witness :
  ClerkBoot.construct
    (Env.read (Env.plainToInstance sample_ToString sample_ToNumber sample_env)
       "CLERK_JWKS_URL")
  = inr (Env.read (Env.plainToInstance sample_ToString sample_ToNumber sample_env)
           "CLERK_JWKS_URL").
Proof.
  apply (accepted_configuration_shape sample_ToString sample_ToNumber sample_isURL
           sample_env
           (Env.plainToInstance sample_ToString sample_ToNumber sample_env)).
  vm_compute. reflexivity.
Defined.

Lemma token_is_last_word_witness :
  Clerk.token_of (Clerk.mkRequest (Some "Basic abc")) = Some "abc".
Proof.
  apply (proj1 (proj2 (proj2 (token_is_last_word nat unit (fun _ => inl tt)
                                "Basic" "Bearer" "abc" "abc")) eq_refl)).
Defined.

Lemma validate_rejections_witness :
  Clerk.validate nat unit (fun _ => inr 0) (Clerk.mkRequest (Some "Bearer "))
  = (inl (Nest.throw Nest.UnauthorizedException "No token provided"), []).
Proof.
  apply (proj1 (proj2 (validate_rejections nat unit (fun _ => inr 0)
                         (Clerk.mkRequest (Some "Bearer "))))).
  reflexivity.
Defined.
